(** * math_bot: the quiz session engine of [bot.py]

    A shallow embedding of the session state machine of the Telegram quiz
    bot: the answer normaliser, the session store [user_sessions], the
    handlers that create, advance, skip, time out and finalise a session,
    and the dispatcher that routes transport updates to them.

    Modelling choices.
    - A Python [str] is a list of Unicode code points ([list N]).
    - A row of the task table is a record of optional fields, one per key
      the code reads with [dict.get]; field values are JSON scalars.
    - [user_sessions] is a finite map from user ids to session records; a
      handler runs to completion, so the in-place mutation of a session
      dict is an update of the map entry.
    - A run is a sequence of whole handler runs, one update after the
      other.  The code suspends a handler at each [await] of a send, and
      the dispatcher may serve another update meanwhile; such interleaved
      runs are not part of the model.  The bound of [correct] by [current]
      and the agreement of [waiting_text] with the type of the current
      task ([well_formed]) are invariants of these sequential runs only.
    - [send_task] calls itself once per task of unknown type in a row;
      the model follows the recursion to its end, without the limit the
      interpreter puts on the depth of nested calls.
    - Everything the code obtains from outside (Supabase answers, the
      draws of [random.shuffle]) reaches a handler through an [oracle].
    - A pending [test_timer] coroutine is an entry of the list [timers];
      the passage of time is the event [TimerFire].
    - [str.lower] is a parameter of the development ([lower]); the two
      facts used about it are stated as hypotheses and hold of the lowering
      [lower_basic] on which the sample runs are computed.
    - A message update carries a text; an [IndexError] of the unguarded
      list accesses is the outcome [IndexError], and a handler that raises
      ends the run.
    - Texts sent by the bot are kept symbolic: a literal, a question, or a
      summary with its numbers. *)

From Stdlib Require Import ZArith NArith Ascii String.
From stdpp Require Import gmap list pretty.

Open Scope Z_scope.

(** ** Python values and strings *)

Abbreviation pystr := (list N).

(** Code points of an ASCII literal. *)
Definition cps (s : string) : pystr := N_of_ascii <$> list_ascii_of_string s.

(** JSON scalars as they arrive in a task row. *)
Inductive pyval :=
| PNone
| PBool (b : bool)
| PInt (z : Z)
| PStr (s : pystr).

#[global] Instance pyval_eq_dec : EqDecision pyval.
Proof. solve_decision. Defined.

(** [str(v)]. *)
Definition py_str (v : pyval) : pystr :=
  match v with
  | PNone => cps "None"
  | PBool true => cps "True"
  | PBool false => cps "False"
  | PInt z => cps (pretty z)
  | PStr s => s
  end.

(** [dict.get(key)] and [dict.get(key, default)] on an optional field. *)
Definition get (field : option pyval) : pyval := default PNone field.
Definition get_or (field : option pyval) (d : pyval) : pyval := default d field.

(** ** Whitespace and the punctuation class of [normalize_answer] *)

Definition in_range (lo hi c : N) : bool := ((lo <=? c) && (c <=? hi))%N.

(** The characters for which [str.isspace] holds; [str.strip] and the
    regular expression class [\s] both use this set. *)
Definition is_space (c : N) : bool :=
  in_range 9 13 c || in_range 28 32 c || (c =? 133)%N || (c =? 160)%N
  || (c =? 5760)%N || in_range 8192 8202 c || (c =? 8232)%N || (c =? 8233)%N
  || (c =? 8239)%N || (c =? 8287)%N || (c =? 12288)%N.

(** The character class of the first [re.sub]: degree sign, masculine
    ordinal, caret, bullet, multiplication sign (listed twice), asterisk,
    slash, backslash, full stop, comma, semicolon, colon, exclamation and
    question mark, hyphen, round and square brackets, double and single
    quote. *)
Definition punctuation : list N :=
  [176; 186; 94; 8226; 215; 215; 42; 47; 92; 46; 44; 59; 58; 33; 63; 45;
   40; 41; 91; 93; 34; 39]%N.

Definition is_punct (c : N) : bool := bool_decide (c ∈ punctuation).

(** [re.sub] of a character class by the empty string: delete its members. *)
Definition re_sub_class (cls : N → bool) (s : pystr) : pystr :=
  filter (λ c, cls c = false) s.

Fixpoint lstrip (s : pystr) : pystr :=
  match s with
  | c :: s' => if is_space c then lstrip s' else s
  | [] => []
  end.

Definition rstrip (s : pystr) : pystr := reverse (lstrip (reverse s)).

(** [str.strip()]. *)
Definition strip (s : pystr) : pystr := rstrip (lstrip s).

(** A lowering on the ASCII, Latin-1 and basic Cyrillic letters, used to
    run the development on concrete strings. *)
Definition lower_char (c : N) : N :=
  if in_range 65 90 c then (c + 32)%N
  else if in_range 192 214 c || in_range 216 222 c then (c + 32)%N
  else if in_range 1040 1071 c then (c + 32)%N
  else if in_range 1024 1039 c then (c + 80)%N
  else c.

Definition lower_basic (s : pystr) : pystr := lower_char <$> s.

(** ** Tasks, sessions and the session store *)

(** A row of the task table.  A field is [None] when the key is missing
    from the row.  [t_options] is the value of [options] once
    [load_tasks_from_supabase] has decoded it (a missing or empty value is
    the empty list). *)
Record task := Task {
  t_type : option pyval;
  t_question : option pyval;
  t_options : list pyval;
  t_answer : option pyval;
  t_explanation : option pyval
}.

(** The session dict: keys [tasks], [current], [correct], [wrong] and
    [waiting_text]. *)
Record session := Session {
  tasks : list task;
  current : nat;
  correct : nat;
  wrong : list (pyval * pyval);
  waiting_text : bool
}.

Definition set_tasks (l : list task) (s : session) : session :=
  Session l (current s) (correct s) (wrong s) (waiting_text s).
Definition set_current (n : nat) (s : session) : session :=
  Session (tasks s) n (correct s) (wrong s) (waiting_text s).
Definition set_correct (n : nat) (s : session) : session :=
  Session (tasks s) (current s) n (wrong s) (waiting_text s).
Definition set_wrong (w : list (pyval * pyval)) (s : session) : session :=
  Session (tasks s) (current s) (correct s) w (waiting_text s).
Definition set_waiting_text (b : bool) (s : session) : session :=
  Session (tasks s) (current s) (correct s) (wrong s) b.

(** The process state: the global dict [user_sessions] and the
    [test_timer] coroutines that are still asleep, each knowing only the
    user id it was created with. *)
Record state := State {
  user_sessions : gmap Z session;
  timers : list Z
}.

Definition initial : state := State ∅ [].

Definition with_sessions (f : gmap Z session → gmap Z session) (st : state) : state :=
  State (f (user_sessions st)) (timers st).

(** ** What the bot sends *)

Open Scope string_scope.

Definition txt_menu := "🏠 Главное меню".
Definition txt_server_error := "Ошибка сервера. Попробуй позже.".
Definition txt_bad_code := "❌ Неверный код.".
Definition txt_bind_error := "Ошибка при привязке кода. Напиши позже.".
Definition txt_registered := "✅ Регистрация успешна! Добро пожаловать.".
Definition txt_already_registered := "✅ Ты уже зарегистрирован.".
Definition txt_code_used := "❌ Этот код уже использован другим пользователем.".
Definition txt_not_registered :=
  "❌ Сначала зарегистрируйся с помощью индивидуального кода.".
Definition txt_no_tasks := "В базе нет задач или произошла ошибка.".
Definition txt_no_session := "Сессия не найдена. Нажми /test или вернись в меню.".
Definition txt_right := "✅ Верно!".
Definition txt_wrong := "❌ Неверно!".

Close Scope string_scope.

(** The default of [task.get] for a missing question: the code points of
    the Russian for (question omitted), parentheses included. *)
Definition default_question : pystr :=
  [40; 1074; 1086; 1087; 1088; 1086; 1089; 32; 1087; 1088; 1086; 1087; 1091;
   1097; 1077; 1085; 41]%N.

(** The text of a message: a fixed literal, one of the two question
    formats of [send_task], or the summary of [show_results]. *)
Inductive text :=
| Lit (s : string)
| Question (question_text : pystr)
| QuestionTyped (question_text : pystr)
| Results (correct total : nat) (wrong : list (pyval * pyval)).

Inductive label :=
| LOption (opt : pystr)
| LSkip
| LMenu
| LStartTest
| LRetake.

Record button := Button { b_text : label; callback_data : pystr }.

(** [bot.send_message(chat_id, text, reply_markup=kb)]; [message.answer]
    is the same call on the chat of the update.  No keyboard is []. *)
Inductive reply :=
| SendMessage (chat_id : Z) (body : text) (reply_markup : list button).

(** ** Outcomes of a handler *)

Inductive outcome (A : Type) :=
| Ok (a : A)
| IndexError
| NoFuel.
Arguments Ok {A} a.
Arguments IndexError {A}.
Arguments NoFuel {A}.

(** Messages sent before a call come first in the outbox. *)
Definition after (out : list reply) (r : outcome (state * list reply))
  : outcome (state * list reply) :=
  match r with
  | Ok (st, out') => Ok (st, out ++ out')
  | IndexError => IndexError
  | NoFuel => NoFuel
  end.

(** ** External collaborators *)

Inductive db_result (A : Type) :=
| DbError
| DbData (data : A).
Arguments DbError {A}.
Arguments DbData {A} data.

(** A row of the codes table; [telegram_id] is [None] for null or the
    empty string. *)
Record code_row := CodeRow { telegram_id : option Z }.

(** What the outside world answers during one handler run. *)
Record oracle := Oracle {
  code_by_code : db_result (option code_row);
  code_update_error : bool;
  code_by_user : db_result (option code_row);
  tasks_select : db_result (list task);
  draws : list nat
}.

(** ** Shuffling *)

(** [x[i], x[j] = x[j], x[i]]. *)
Definition swap (i j : nat) (x : list task) : list task :=
  match x !! i, x !! j with
  | Some a, Some b => <[j := a]> (<[i := b]> x)
  | _, _ => x
  end.

(** The loop of [random.shuffle]: for [i] from [len(x) - 1] down to 1, draw
    [j] below [i + 1] and swap.  The draws come from the oracle. *)
Fixpoint shuffle_from (i : nat) (draws : list nat) (x : list task) : list task :=
  match i with
  | O => x
  | S i' => shuffle_from i' (tail draws) (swap i (hd 0 draws `mod` S i)%nat x)
  end.

Definition shuffle (draws : list nat) (x : list task) : list task :=
  shuffle_from (length x - 1) draws x.

(** ** Filters of the dispatcher *)

Definition startswith (p s : pystr) : bool := bool_decide (take (length p) s = p).

(** [data.split(":", 1)[1]]: what follows the first colon. *)
Fixpoint after_colon (s : pystr) : option pystr :=
  match s with
  | [] => None
  | c :: s' => if (c =? 58)%N then Some s' else after_colon s'
  end.

Definition is_code_char (c : N) : bool := in_range 65 90 c || in_range 48 57 c.

Definition code_body (s : pystr) : bool :=
  bool_decide (4 ≤ length s ≤ 10)%nat && forallb is_code_char s.

(** [re.match] of [^[A-Z0-9]{4,10}$]: the dollar also matches before one
    final newline. *)
Definition matches_code (s : pystr) : bool :=
  code_body s ||
  match reverse s with
  | c :: r => (c =? 10)%N && code_body (reverse r)
  | [] => false
  end.

(** ** Updates *)

(** Updates delivered by the transport, and the wake-up of the [i]-th
    sleeping timer. *)
Inductive update :=
| Message (chat from_user : Z) (text : pystr)
| CallbackQuery (chat from_user : Z) (data : pystr)
| TimerFire (i : nat).

(** ** Sample data *)

(** The two tasks of the scenario of the specification, a task of unknown
    type, and a user. *)
Definition t_sum : task :=
  Task (Some (PStr (cps "choice"))) (Some (PStr (cps "2+2?")))
       [PStr (cps "3"); PStr (cps "4")] (Some (PStr (cps "4")))
       (Some (PStr (cps "two and two make four"))).

Definition t_capital : task :=
  Task (Some (PStr (cps "text"))) (Some (PStr (cps "Capital of France?")))
       [] (Some (PStr (cps "Paris"))) (Some (PStr (cps "it is Paris"))).

Definition t_note : task :=
  Task (Some (PStr (cps "note"))) (Some (PStr (cps "Read the rules")))
       [] None None.

(** The sum again, as a row whose answer column is a number. *)
Definition t_four : task :=
  Task (Some (PStr (cps "choice"))) (Some (PStr (cps "2+2?")))
       [PInt 3; PInt 4] (Some (PInt 4))
       (Some (PStr (cps "two and two make four"))).

Definition alice : Z := 7.

Definition registered : db_result (option code_row) :=
  DbData (Some (CodeRow (Some alice))).

Definition bank (l : list task) : oracle :=
  Oracle DbError false registered (DbData l) [].

(** The outside world when Alice sends the code that is bound to her. *)
Definition own_code : oracle :=
  Oracle registered false registered (DbData []) [].

(** Alice in a test on [l], at position [n]. *)
Definition in_test (l : list task) (n : nat) (w : bool) : state :=
  State {[alice := Session l n 0 [] w]} [alice].

(** Updates that do not start a test for Alice: she lets the timer run
    out, clicks a stale answer button, skips, and types. *)
Definition stray : list (oracle * update) :=
  [(bank [], TimerFire 0);
   (bank [], CallbackQuery alice alice (cps "ans:4"));
   (bank [], CallbackQuery alice alice (cps "skip"));
   (bank [], Message alice alice (cps "paris"))].

(** Updates that keep Alice in her test: she skips the first task and
    types an answer to the second. *)
Definition moves : list (oracle * update) :=
  [(bank [], CallbackQuery alice alice (cps "skip"));
   (bank [], Message alice alice (cps "paris"))].

(** A whole test of Alice on the two sample tasks: she skips the
    question she is shown first, clicks the answer 4 and types the
    capital. *)
Definition play : list (oracle * update) :=
  [(bank [], CallbackQuery alice alice (cps "skip"));
   (bank [], CallbackQuery alice alice (cps "ans:4"));
   (bank [], Message alice alice (cps "paris"))].

Section Bot.

(** [str.lower] of the Python runtime. *)
Variable lower : pystr → pystr.

(** ** Answer normaliser *)

Definition normalize_answer (s : pyval) : pystr :=
  match s with
  | PStr s =>
      let s := strip (lower s) in
      let s := re_sub_class is_punct s in
      let s := re_sub_class is_space s in
      s
  | _ => []
  end.

(** ** Main menu *)

Definition menu_kb : list button := [Button LStartTest (cps "start_test")].
Definition results_kb : list button :=
  [Button LRetake (cps "start_test"); Button LMenu (cps "back_menu")].
Definition skip_button : button := Button LSkip (cps "skip").
Definition back_button : button := Button LMenu (cps "back_menu").

Definition main_menu (user_id : Z) (st : state) : state * list reply :=
  (with_sessions (delete user_id) st,
   [SendMessage user_id (Lit txt_menu) menu_kb]).

(** ** Registration by code *)

Definition register_user (o : oracle) (chat user_id : Z) (st : state)
  : state * list reply :=
  match code_by_code o with
  | DbError => (st, [SendMessage chat (Lit txt_server_error) []])
  | DbData None => (st, [SendMessage chat (Lit txt_bad_code) []])
  | DbData (Some data) =>
      match telegram_id data with
      | None =>
          if code_update_error o
          then (st, [SendMessage chat (Lit txt_bind_error) []])
          else
            let '(st, out) := main_menu user_id st in
            (st, SendMessage chat (Lit txt_registered) [] :: out)
      | Some owner =>
          if decide (owner = user_id)
          then
            let '(st, out) := main_menu user_id st in
            (st, SendMessage chat (Lit txt_already_registered) [] :: out)
          else (st, [SendMessage chat (Lit txt_code_used) []])
      end
  end.

(** ** Loading the task bank *)

Definition load_tasks_from_supabase (o : oracle) : list task :=
  match tasks_select o with
  | DbError => []
  | DbData tasks => tasks
  end.

(** ** Results *)

Definition show_results (user_id : Z) (st : state) : state * list reply :=
  match user_sessions st !! user_id with
  | None => (st, [])
  | Some session =>
      let total := length (tasks session) in
      (with_sessions (delete user_id) st,
       [SendMessage user_id (Results (correct session) total (wrong session))
          results_kb])
  end.

(** ** Sending a task *)

Definition option_button (opt : pyval) : button :=
  Button (LOption (py_str opt)) (cps "ans:" ++ py_str opt).

(** [send_task] calls itself after a task of unknown type; [fuel] bounds
    the depth of that recursion. *)
Fixpoint send_task_fuel (fuel : nat) (user_id : Z) (st : state)
  : outcome (state * list reply) :=
  match fuel with
  | O => NoFuel
  | S fuel =>
      match user_sessions st !! user_id with
      | None => Ok (st, [])
      | Some session =>
          if decide (length (tasks session) ≤ current session)%nat
          then Ok (show_results user_id st)
          else
            match tasks session !! current session with
            | None => IndexError
            | Some task =>
                let ttype := get_or (t_type task) (PStr (cps "choice")) in
                let question_text :=
                  py_str (get_or (t_question task) (PStr default_question)) in
                if decide (ttype = PStr (cps "choice")) then
                  let kb := (option_button <$> t_options task)
                              ++ [skip_button] ++ [back_button] in
                  Ok (st, [SendMessage user_id (Question question_text) kb])
                else if decide (ttype = PStr (cps "text")) then
                  let session := set_waiting_text true session in
                  let kb := [skip_button] ++ [back_button] in
                  Ok (with_sessions (insert user_id session) st,
                      [SendMessage user_id (QuestionTyped question_text) kb])
                else
                  let session := set_current (current session + 1) session in
                  after [SendMessage user_id (Question question_text) []]
                    (send_task_fuel fuel user_id
                       (with_sessions (insert user_id session) st))
            end
      end
  end.

Definition queue_length (user_id : Z) (st : state) : nat :=
  from_option (λ session, length (tasks session)) O (user_sessions st !! user_id).

Definition send_task (user_id : Z) (st : state) : outcome (state * list reply) :=
  send_task_fuel (S (queue_length user_id st)) user_id st.

(** ** Starting a test *)

Definition begin_test (o : oracle) (user_id : Z) (st : state)
  : outcome (state * list reply) :=
  match code_by_user o with
  | DbError => Ok (st, [SendMessage user_id (Lit txt_server_error) []])
  | DbData None => Ok (st, [SendMessage user_id (Lit txt_not_registered) []])
  | DbData (Some _) =>
      match load_tasks_from_supabase o with
      | [] => Ok (st, [SendMessage user_id (Lit txt_no_tasks) []])
      | tasks =>
          let tasks := shuffle (draws o) tasks in
          let session := Session tasks 0 0 [] false in
          send_task user_id
            (State (<[user_id := session]> (user_sessions st))
                   (timers st ++ [user_id]))
      end
  end.

(** The body of [test_timer] once its sleep is over. *)
Definition test_timer (user_id : Z) (st : state) : state * list reply :=
  if decide (is_Some (user_sessions st !! user_id))
  then show_results user_id st
  else (st, []).

(** ** Answers by button *)

Definition process_answer (chat user_id : Z) (data : pystr) (st : state)
  : outcome (state * list reply) :=
  match user_sessions st !! user_id with
  | None => Ok (st, [SendMessage chat (Lit txt_no_session) []])
  | Some session =>
      match tasks session !! current session with
      | None => IndexError
      | Some task =>
          match after_colon data with
          | None => IndexError
          | Some answer =>
              let expected := get (t_answer task) in
              let '(session, feedback) :=
                if decide (normalize_answer (PStr (py_str (PStr answer)))
                           = normalize_answer (PStr (py_str expected)))
                then (set_correct (correct session + 1) session, txt_right)
                else
                  (set_wrong
                     (wrong session
                        ++ [(get_or (t_question task) (PStr []),
                             get_or (t_explanation task) (PStr []))])
                     session,
                   txt_wrong) in
              let session := set_current (current session + 1) session in
              let session := set_waiting_text false session in
              after [SendMessage chat (Lit feedback) []]
                (send_task user_id (with_sessions (insert user_id session) st))
          end
      end
  end.

(** ** Skipping *)

Definition skip_task (user_id : Z) (st : state) : outcome (state * list reply) :=
  match user_sessions st !! user_id with
  | None => Ok (st, [])
  | Some session =>
      match tasks session !! current session with
      | None => IndexError
      | Some task =>
          let session :=
            set_tasks (delete (current session) (tasks session) ++ [task])
              session in
          let session := set_waiting_text false session in
          send_task user_id (with_sessions (insert user_id session) st)
      end
  end.

Definition go_back_menu (user_id : Z) (st : state) : state * list reply :=
  main_menu user_id st.

(** ** Answers by text *)

Definition process_text_answer (chat user_id : Z) (text : pystr) (st : state)
  : outcome (state * list reply) :=
  match user_sessions st !! user_id with
  | None => Ok (st, [])
  | Some session =>
      if negb (waiting_text session) then Ok (st, [])
      else
        match tasks session !! current session with
        | None => IndexError
        | Some task =>
            let answer := strip text in
            let '(session, feedback) :=
              if decide (normalize_answer (PStr answer)
                         = normalize_answer (get_or (t_answer task) (PStr [])))
              then (set_correct (correct session + 1) session, txt_right)
              else
                (set_wrong
                   (wrong session
                      ++ [(get_or (t_question task) (PStr []),
                           get_or (t_explanation task) (PStr []))])
                   session,
                 txt_wrong) in
            let session := set_current (current session + 1) session in
            let session := set_waiting_text false session in
            after [SendMessage chat (Lit feedback) []]
              (send_task user_id (with_sessions (insert user_id session) st))
        end
  end.

(** ** Dispatcher *)

(** The first handler whose filter matches runs; handlers are tried in
    the order of their registration. *)
Definition dispatch (o : oracle) (ev : update) (st : state)
  : outcome (state * list reply) :=
  match ev with
  | Message chat user_id text =>
      if matches_code text then Ok (register_user o chat user_id st)
      else if decide (text = cps "/test") then begin_test o user_id st
      else process_text_answer chat user_id text st
  | CallbackQuery chat user_id data =>
      if decide (data = cps "start_test") then begin_test o user_id st
      else if startswith (cps "ans:") data then process_answer chat user_id data st
      else if decide (data = cps "skip") then skip_task user_id st
      else if decide (data = cps "back_menu") then Ok (go_back_menu user_id st)
      else Ok (st, [])
  | TimerFire i =>
      match timers st !! i with
      | None => Ok (st, [])
      | Some user_id =>
          Ok (test_timer user_id (State (user_sessions st) (delete i (timers st))))
      end
  end.

(** A run of the bot over a sequence of events, each with the answers of
    the outside world during its handler. *)
Fixpoint run (st : state) (evs : list (oracle * update))
  : outcome (state * list reply) :=
  match evs with
  | [] => Ok (st, [])
  | (o, ev) :: evs => 
      match dispatch o ev st with
      | Ok (st, out) => after out (run st evs)
      | IndexError => IndexError
      | NoFuel => NoFuel
      end
  end.

(** ** Notions used in the statements *)

(** Every stored session points at a task of its queue. *)
Definition in_bounds (st : state) : Prop :=
  ∀ u s, user_sessions st !! u = Some s → (current s < length (tasks s))%nat.

(** The summaries sent to a user, as (correct, total) pairs. *)
Definition reports (u : Z) (out : list reply) : list (nat * nat) :=
  omap (λ r, match r with
             | SendMessage c (Results k n _) _ =>
                 if decide (c = u) then Some (k, n) else None
             | _ => None
             end) out.

(** The question texts presented to a user, in the order sent. *)
Definition questions (u : Z) (out : list reply) : list pystr :=
  omap (λ r, match r with
             | SendMessage c (Question q) _ | SendMessage c (QuestionTyped q) _ =>
                 if decide (c = u) then Some q else None
             | _ => None
             end) out.

(** The text under which [send_task] presents a task. *)
Definition question_of (t : task) : pystr :=
  py_str (get_or (t_question t) (PStr default_question)).

(** The update is one of the two triggers of [begin_test] for user [u]. *)
Definition starts_test (u : Z) (ev : update) : Prop :=
  match ev with
  | Message _ v text => v = u ∧ text = cps "/test"
  | CallbackQuery _ v data => v = u ∧ data = cps "start_test"
  | TimerFire _ => False
  end.

(** [send_task] told by recursion on the tasks from [current] on: the
    session it leaves ([None] once the results are shown) and what it
    sends. *)
Fixpoint present (user_id : Z) (rest : list task) (s : session)
  : option session * list reply :=
  match rest with
  | [] =>
      (None,
       [SendMessage user_id (Results (correct s) (length (tasks s)) (wrong s))
          results_kb])
  | t :: rest' =>
      let ttype := get_or (t_type t) (PStr (cps "choice")) in
      if decide (ttype = PStr (cps "choice")) then
        (Some s,
         [SendMessage user_id (Question (question_of t))
            ((option_button <$> t_options t) ++ [skip_button] ++ [back_button])])
      else if decide (ttype = PStr (cps "text")) then
        (Some (set_waiting_text true s),
         [SendMessage user_id (QuestionTyped (question_of t))
            ([skip_button] ++ [back_button])])
      else
        let '(r, out) := present user_id rest' (set_current (current s + 1) s) in
        (r, SendMessage user_id (Question (question_of t)) [] :: out)
  end.

(** Storing the outcome of [present] for a user. *)
Definition put (u : Z) (r : option session) (st : state) : state :=
  match r with
  | Some s => with_sessions (insert u s) st
  | None => with_sessions (delete u) st
  end.

(** The tasks of a session that are still to be answered, the current
    one first. *)
Definition remaining (s : session) : list task := drop (current s) (tasks s).

(** The two ways a handler changes a session before it calls
    [send_task]: an answer moves [current] one step, a skip moves the
    current task to the end of the queue. *)
Inductive move (s s1 : session) : Prop :=
| move_answer :
    tasks s1 = tasks s → current s1 = S (current s) → move s s1
| move_skip t :
    tasks s !! current s = Some t →
    tasks s1 = delete (current s) (tasks s) ++ [t] →
    current s1 = current s → correct s1 = correct s → wrong s1 = wrong s →
    move s s1.

(** What one handler run does to the session of user [u] and shows to
    that user. *)
Inductive effect (u : Z) : option session → option session → list reply → Prop :=
| eff_idle b out :
    reports u out = [] → questions u out = [] → effect u b b out
| eff_drop b out :
    reports u out = [] → questions u out = [] → effect u b None out
| eff_timer s out :
    reports u out = [(correct s, length (tasks s))] → questions u out = [] →
    effect u (Some s) None out
| eff_move s s1 r o out :
    (current s < length (tasks s))%nat → move s s1 →
    present u (remaining s1) s1 = (r, o) →
    reports u out = reports u o → questions u out = questions u o →
    effect u (Some s) r out.

(** No update of the run starts a test for user [u]. *)
Definition no_restart (u : Z) (evs : list (oracle * update)) : Prop :=
  Forall (λ e, ¬ starts_test u e.2) evs.

(** One of two sequences continues the other. *)
Definition comparable {A} (a b : list A) : Prop :=
  a `prefix_of` b ∨ b `prefix_of` a.

(** The pair recorded for a missed task. *)
Definition missed_pair (t : task) : pyval * pyval :=
  (get_or (t_question t) (PStr []), get_or (t_explanation t) (PStr [])).

(** Session [s1] is session [s] after the answer [raw] to task [t] was
    compared with [expected]; [feedback] is the text sent back. *)
Definition scored (raw expected : pystr) (t : task) (s s1 : session)
    (feedback : string) : Prop :=
  tasks s1 = tasks s
  ∧ current s1 = (current s + 1)%nat
  ∧ waiting_text s1 = false
  ∧ if decide (normalize_answer (PStr raw) = normalize_answer (PStr expected))
    then correct s1 = (correct s + 1)%nat ∧ wrong s1 = wrong s
         ∧ feedback = txt_right
    else correct s1 = correct s ∧ wrong s1 = wrong s ++ [missed_pair t]
         ∧ feedback = txt_wrong.

(** ** Notions used in the further properties *)

(** The type under which [send_task] treats a task. *)
Definition ttype (t : task) : pyval := get_or (t_type t) (PStr (cps "choice")).

(** The session an answer handler hands to [send_task]: [ok] tells whether
    the normalised answers were equal. *)
Definition answered (ok : bool) (t : task) (s : session) : session :=
  set_waiting_text false
    (set_current (current s + 1)
       (if ok then set_correct (correct s + 1) s
        else set_wrong (wrong s ++ [missed_pair t]) s)).

(** The session [skip_task] hands to [send_task]. *)
Definition skipped (t : task) (s : session) : session :=
  set_waiting_text false
    (set_tasks (delete (current s) (tasks s) ++ [t]) s).

(** A session at rest: [current] points at a task that waits for a button
    or for a text, [waiting_text] says which, and the judged answers are
    no more than the tasks passed. *)
Definition well_formed (s : session) : Prop :=
  ∃ t, tasks s !! current s = Some t
       ∧ (correct s + length (wrong s) ≤ current s)%nat
       ∧ ((ttype t = PStr (cps "choice") ∧ waiting_text s = false)
          ∨ (ttype t = PStr (cps "text") ∧ waiting_text s = true)).

(** The state at rest: every stored session is well formed and its user
    has a sleeping timer. *)
Definition at_rest (st : state) : Prop :=
  ∀ u s, user_sessions st !! u = Some s → well_formed s ∧ u ∈ timers st.

(** A summary does not count more answers than it has tasks. *)
Definition fair (r : reply) : Prop :=
  match r with
  | SendMessage _ (Results k n w) _ => (k + length w ≤ n)%nat
  | _ => True
  end.

Definition literal (r : reply) : Prop :=
  match r with
  | SendMessage _ (Lit _) _ => True
  | _ => False
  end.

(** The chat a reply goes to. *)
Definition chat_of (r : reply) : Z :=
  match r with SendMessage c _ _ => c end.

(** The user and the chat of a transport update. *)
Definition actor (ev : update) : option (Z * Z) :=
  match ev with
  | Message chat v _ | CallbackQuery chat v _ => Some (v, chat)
  | TimerFire _ => None
  end.

(** The exact forms a handler run takes. *)
Inductive shape (ev : update) (st st' : state) (out : list reply) : Prop :=
| sh_quiet :
    st' = st → Forall literal out →
    (∀ v chat, actor ev = Some (v, chat) →
               Forall (λ r, chat_of r = chat ∨ chat_of r = v) out) →
    (actor ev = None → out = []) →
    shape ev st st' out
| sh_menu v chat :
    actor ev = Some (v, chat) → ¬ starts_test v ev →
    st' = with_sessions (delete v) st → Forall literal out →
    Forall (λ r, chat_of r = chat ∨ chat_of r = v) out →
    shape ev st st' out
| sh_timer_idle i v :
    ev = TimerFire i → timers st !! i = Some v →
    user_sessions st !! v = None →
    st' = State (user_sessions st) (delete i (timers st)) → out = [] →
    shape ev st st' out
| sh_timer_final i v s :
    ev = TimerFire i → timers st !! i = Some v →
    user_sessions st !! v = Some s →
    st' = State (delete v (user_sessions st)) (delete i (timers st)) →
    out = [SendMessage v (Results (correct s) (length (tasks s)) (wrong s))
             results_kb] →
    shape ev st st' out
| sh_move v chat s t s1 pre r o :
    actor ev = Some (v, chat) → ¬ starts_test v ev →
    user_sessions st !! v = Some s → tasks s !! current s = Some t →
    s1 = answered true t s ∨ s1 = answered false t s ∨ s1 = skipped t s →
    Forall literal pre → Forall (λ r, chat_of r = chat) pre →
    present v (remaining s1) s1 = (r, o) →
    st' = put v r st → out = pre ++ o →
    shape ev st st' out
| sh_start v chat l ds r o :
    actor ev = Some (v, chat) → starts_test v ev → l ≠ [] →
    present v (drop 0 (shuffle ds l)) (Session (shuffle ds l) 0 0 [] false)
    = (r, o) →
    st' = put v r (State (user_sessions st) (timers st ++ [v])) → out = o →
    shape ev st st' out.

(** A task [send_task] only shows: its type is neither choice nor text. *)
Definition unknown (t : task) : Prop :=
  ttype t ≠ PStr (cps "choice") ∧ ttype t ≠ PStr (cps "text").

(** The message [send_task] sends for a task of unknown type. *)
Definition shown (u : Z) (t : task) : reply :=
  SendMessage u (Question (question_of t)) [].

(** A click on an answer button carrying [ol.2], with the outside world
    [ol.1]. *)
Definition click (chat u : Z) (ol : oracle * pystr) : oracle * update :=
  (ol.1, CallbackQuery chat u (cps "ans:" ++ ol.2)).

(** A task that waits for an answer: its type is choice or text. *)
Definition answerable (t : task) : Prop :=
  ttype t = PStr (cps "choice") ∨ ttype t = PStr (cps "text").

Definition expects_text (t : task) : bool :=
  bool_decide (ttype t = PStr (cps "text")).

(** A click on the skip button, with the outside world [o]. *)
Definition skip_click (chat u : Z) (o : oracle) : oracle * update :=
  (o, CallbackQuery chat u (cps "skip")).

(** Session [s'] is a later stage of the test of session [s]. *)
Definition later_stage (s s' : session) : Prop :=
  tasks s' ≡ₚ tasks s
  ∧ (current s ≤ current s')%nat
  ∧ (correct s ≤ correct s')%nat
  ∧ wrong s `prefix_of` wrong s'.

(** The update is an answer submission of user [u], or may be one: a click
    on an option button, or a text that is neither a code nor the test
    command. *)
Definition submits (u : Z) (ev : update) : bool :=
  match ev with
  | Message _ v text =>
      bool_decide (v = u) && negb (matches_code text)
      && negb (bool_decide (text = cps "/test"))
  | CallbackQuery _ v data =>
      bool_decide (v = u) && startswith (cps "ans:") data
  | TimerFire _ => false
  end.

(** The number of answer submissions of user [u] in a run. *)
Definition submissions (u : Z) (evs : list (oracle * update)) : nat :=
  sum_list_with (λ e, if submits u e.2 then 1%nat else 0%nat) evs.

(** The judged answers of a session. *)
Definition score (s : session) : nat := (correct s + length (wrong s))%nat.

(** A summary for user [u] counts at most [n] judged answers. *)
Definition within (u : Z) (n : nat) (r : reply) : Prop :=
  match r with
  | SendMessage c (Results k _ w) _ => c = u → (k + length w ≤ n)%nat
  | _ => True
  end.

(** The update may return user [u] to the main menu: a click on the menu
    button, or a text that has the form of a registration code. *)
Definition to_menu (u : Z) (ev : update) : Prop :=
  match ev with
  | Message _ v text => v = u ∧ matches_code text = true
  | CallbackQuery _ v data => v = u ∧ data = cps "back_menu"
  | TimerFire _ => False
  end.

(** Session [s1] is session [s] after the normalised answer [raw] to task
    [t] was compared with the normalised text [reference]; [feedback] is
    the text sent back. *)
Definition judged (raw reference : pystr) (t : task) (s s1 : session)
    (feedback : string) : Prop :=
  tasks s1 = tasks s
  ∧ current s1 = (current s + 1)%nat
  ∧ waiting_text s1 = false
  ∧ if decide (normalize_answer (PStr raw) = reference)
    then correct s1 = (correct s + 1)%nat ∧ wrong s1 = wrong s
         ∧ feedback = txt_right
    else correct s1 = correct s ∧ wrong s1 = wrong s ++ [missed_pair t]
         ∧ feedback = txt_wrong.

(** * Properties *)

(** ** What is assumed of [str.lower] *)

(** Deleting characters from a lowered string leaves a string that
    [lower] does not change. *)
Hypothesis lower_stable :
  ∀ cls s, lower (re_sub_class cls (lower s)) = re_sub_class cls (lower s).

(** Lowering neither creates nor removes surrounding whitespace. *)
Hypothesis lower_strip : ∀ s, lower (strip s) = strip (lower s).

(** ** The normaliser *)

Lemma re_sub_class_or (a b : N → bool) (s : pystr) :
  re_sub_class a (re_sub_class b s) = re_sub_class (λ c, a c || b c) s.
Proof.
  unfold re_sub_class. induction s as [|c s IH]; [done|].
  rewrite !filter_cons. destruct (b c) eqn:Hb.
  - rewrite decide_False by done. rewrite orb_true_r.
    rewrite decide_False by done. exact IH.
  - rewrite decide_True by done. rewrite orb_false_r.
    rewrite filter_cons. destruct (decide (a c = false)); by rewrite IH.
Qed.

Lemma re_sub_class_ext (a b : N → bool) (s : pystr) :
  (∀ c, a c = b c) → re_sub_class a s = re_sub_class b s.
Proof.
  intros E. unfold re_sub_class. apply list_filter_iff. intros c. by rewrite E.
Qed.

Lemma re_sub_class_lstrip (cls : N → bool) (s : pystr) :
  (∀ c, is_space c = true → cls c = true) →
  re_sub_class cls (lstrip s) = re_sub_class cls s.
Proof.
  intros Hcls. unfold re_sub_class. induction s as [|c s IH]; [done|].
  simpl. destruct (is_space c) eqn:Hc; [|done].
  rewrite IH. symmetry. apply filter_cons_False. by rewrite (Hcls c Hc).
Qed.

Lemma re_sub_class_strip (cls : N → bool) (s : pystr) :
  (∀ c, is_space c = true → cls c = true) →
  re_sub_class cls (strip s) = re_sub_class cls s.
Proof.
  intros Hcls. unfold strip, rstrip.
  rewrite <- (re_sub_class_lstrip cls s Hcls).
  generalize (lstrip s). intros t. unfold re_sub_class.
  rewrite filter_reverse.
  change (reverse (re_sub_class cls (lstrip (reverse t))) = filter (λ c, cls c = false) t).
  rewrite (re_sub_class_lstrip cls _ Hcls). unfold re_sub_class.
  by rewrite filter_reverse, reverse_involutive.
Qed.

(** The normaliser lowers its argument and deletes every punctuation and
    whitespace character. *)
Lemma normalize_answer_PStr (s : pystr) :
  normalize_answer (PStr s)
  = re_sub_class (λ c, is_space c || is_punct c) (lower s).
Proof.
  unfold normalize_answer. rewrite re_sub_class_or.
  apply re_sub_class_strip. intros c Hc. by rewrite Hc.
Qed.

Lemma lower_nil : lower [] = [].
Proof.
  assert (Hall : ∀ t : pystr, re_sub_class (λ _, true) t = []).
  { intros t. unfold re_sub_class. induction t as [|c t IH]; [done|].
    by rewrite filter_cons_False. }
  pose proof (lower_stable (λ _, true) []) as H.
  by rewrite Hall in H.
Qed.

Lemma normalize_answer_strip (s : pystr) :
  normalize_answer (PStr (strip s)) = normalize_answer (PStr s).
Proof.
  rewrite !normalize_answer_PStr, lower_strip.
  apply re_sub_class_strip. intros c Hc. by rewrite Hc.
Qed.

(** C8: [normalize_answer] is idempotent: normalising the result of a
    normalisation gives that result again, for every input, textual or
    not. *)
Theorem normalize_answer_idempotent (x : pyval) :
  normalize_answer (PStr (normalize_answer x)) = normalize_answer x.
Proof.
  assert (Hnil : normalize_answer (PStr []) = []).
  { rewrite normalize_answer_PStr, lower_nil. done. }
  destruct x as [| b | z | s]; try exact Hnil.
  rewrite !normalize_answer_PStr, lower_stable, re_sub_class_or.
  apply re_sub_class_ext. intros c. by destruct (is_space c), (is_punct c).
Qed.

(** ** [send_task] *)

Lemma put_insert (u : Z) (r : option session) (s : session) (st : state) :
  put u r (with_sessions (insert u s) st) = put u r st.
Proof.
  destruct st as [m ts], r as [s'|]; unfold put, with_sessions; simpl; f_equal.
  - apply insert_insert_eq.
  - apply delete_insert_eq.
Qed.

Lemma put_same (u : Z) (s : session) (st : state) :
  user_sessions st !! u = Some s → put u (Some s) st = st.
Proof.
  destruct st as [m ts]. unfold put, with_sessions. simpl. intros H.
  f_equal. by apply insert_id.
Qed.

Lemma send_task_fuel_present (fuel : nat) (u : Z) (st : state) (s : session) :
  user_sessions st !! u = Some s →
  (length (tasks s) - current s < fuel)%nat →
  send_task_fuel fuel u st
  = Ok (put u (present u (drop (current s) (tasks s)) s).1 st,
        (present u (drop (current s) (tasks s)) s).2).
Proof.
  revert st s. induction fuel as [|fuel IH]; intros st s Hs Hfuel; [lia|].
  simpl. rewrite Hs. case_decide as Hlen.
  - rewrite drop_ge by done. unfold show_results. rewrite Hs. done.
  - destruct (lookup_lt_is_Some_2 (tasks s) (current s)) as [t Ht]; [lia|].
    rewrite Ht, (drop_S _ _ _ Ht). simpl. unfold question_of.
    case_decide as Hc.
    { cbn [fst snd]. by rewrite (put_same u s st Hs). }
    case_decide as Ht'; [done|].
    set (s1 := set_current (current s + 1) s).
    assert (H1 : user_sessions (with_sessions (insert u s1) st) !! u = Some s1).
    { apply lookup_insert_eq. }
    rewrite (IH _ s1 H1) by (simpl; lia).
    simpl. rewrite put_insert. replace (current s + 1)%nat with (S (current s)) by lia.
    by destruct (present u (drop (S (current s)) (tasks s)) s1).
Qed.

Lemma send_task_present (u : Z) (st : state) (s : session) :
  user_sessions st !! u = Some s →
  send_task u st
  = Ok (put u (present u (drop (current s) (tasks s)) s).1 st,
        (present u (drop (current s) (tasks s)) s).2).
Proof.
  intros Hs. unfold send_task, queue_length. rewrite Hs.
  apply send_task_fuel_present; [done | simpl; lia].
Qed.

Lemma send_task_absent (u : Z) (st : state) :
  user_sessions st !! u = None → send_task u st = Ok (st, []).
Proof. intros H. unfold send_task. simpl. by rewrite H. Qed.

(** ** What [present] leaves and sends *)

Lemma present_other (u v : Z) (rest : list task) (s : session) :
  v ≠ u →
  reports v (present u rest s).2 = [] ∧ questions v (present u rest s).2 = [].
Proof.
  intros Hv. revert s. induction rest as [|t rest IH]; intros s; simpl.
  - by rewrite decide_False.
  - repeat case_decide; simpl; try by rewrite decide_False.
    specialize (IH (set_current (current s + 1) s)).
    destruct (present u rest (set_current (current s + 1) s)) as [r out].
    simpl in *. by rewrite decide_False.
Qed.

Lemma present_Some (u : Z) (rest : list task) (s s' : session) (out : list reply) :
  present u rest s = (Some s', out) →
  tasks s' = tasks s ∧ correct s' = correct s ∧ wrong s' = wrong s
  ∧ (current s ≤ current s' < current s + length rest)%nat
  ∧ questions u out = question_of <$> take (S (current s' - current s)) rest
  ∧ reports u out = [].
Proof.
  revert s out. induction rest as [|t rest IH]; intros s out; simpl; [done|].
  repeat case_decide.
  - intros [= <- <-]. simpl. rewrite decide_True by done.
    replace (current s - current s)%nat with O by lia.
    repeat split; try done; lia.
  - intros [= <- <-]. simpl. rewrite decide_True by done.
    replace (current s - current s)%nat with O by lia.
    repeat split; try done; lia.
  - specialize (IH (set_current (current s + 1) s)).
    destruct (present u rest (set_current (current s + 1) s)) as [r out1].
    intros [= -> <-]. destruct (IH out1 eq_refl) as (Ht & Hc & Hw & Hcur & Hq & Hr).
    simpl in *. rewrite decide_True by done.
    replace (current s' - current s)%nat with (S (current s' - (current s + 1))) by lia.
    rewrite Hq, Hr. repeat split; try done; lia.
Qed.

Lemma present_None (u : Z) (rest : list task) (s : session) (out : list reply) :
  present u rest s = (None, out) →
  questions u out = question_of <$> rest
  ∧ reports u out = [(correct s, length (tasks s))].
Proof.
  revert s out. induction rest as [|t rest IH]; intros s out; simpl.
  - intros [= <-]. simpl. by rewrite decide_True.
  - repeat case_decide; try done.
    specialize (IH (set_current (current s + 1) s)).
    destruct (present u rest (set_current (current s + 1) s)) as [r out1].
    intros [= -> <-]. destruct (IH out1 eq_refl) as [Hq Hr].
    simpl in *. rewrite decide_True by done. by rewrite Hq, Hr.
Qed.

(** ** The handlers keep every stored session in bounds *)

Lemma in_bounds_delete (v : Z) (st : state) :
  in_bounds st → in_bounds (with_sessions (delete v) st).
Proof.
  intros Hst u s. simpl. rewrite lookup_delete. case_decide; [done|]. apply Hst.
Qed.

Lemma send_after_update (v : Z) (st : state) (s1 : session) :
  (∀ u s, u ≠ v → user_sessions st !! u = Some s →
          (current s < length (tasks s))%nat) →
  (current s1 ≤ length (tasks s1))%nat →
  ∃ r o, present v (remaining s1) s1 = (r, o)
  ∧ send_task v (with_sessions (insert v s1) st) = Ok (put v r st, o)
  ∧ in_bounds (put v r st)
  ∧ ∀ u, u ≠ v →
      user_sessions (put v r st) !! u = user_sessions st !! u
      ∧ reports u o = [] ∧ questions u o = [].
Proof.
  intros Hothers Hcur.
  destruct (present v (remaining s1) s1) as [r o] eqn:Hp.
  exists r, o. split; [done|]. split; [|split].
  - rewrite (send_task_present v _ s1) by apply lookup_insert_eq.
    fold (remaining s1). rewrite Hp. simpl. by rewrite put_insert.
  - intros u s. destruct r as [s'|]; simpl.
    + rewrite lookup_insert. case_decide as Hu.
      * intros [= <-]. apply present_Some in Hp as (Ht & _ & _ & Hc & _).
        unfold remaining in Hc. rewrite length_drop in Hc. rewrite Ht. lia.
      * by apply Hothers.
    + rewrite lookup_delete. case_decide; [done|]. by apply Hothers.
  - intros u Hu. pose proof (present_other v u (remaining s1) s1 Hu) as Ho.
    rewrite Hp in Ho. simpl in Ho. split; [|done].
    destruct r; simpl.
    + by rewrite lookup_insert_ne.
    + by rewrite lookup_delete_ne.
Qed.

Lemma startswith_ans (data : pystr) :
  startswith (cps "ans:") data = true →
  ∃ answer, data = cps "ans:" ++ answer ∧ after_colon data = Some answer.
Proof.
  unfold startswith. rewrite bool_decide_eq_true.
  destruct data as [|a [|b [|c [|d answer]]]]; try done.
  simpl. intros [= -> -> -> ->]. by exists answer.
Qed.

Lemma reports_app (u : Z) (a b : list reply) :
  reports u (a ++ b) = reports u a ++ reports u b.
Proof. apply omap_app. Qed.

Lemma questions_app (u : Z) (a b : list reply) :
  questions u (a ++ b) = questions u a ++ questions u b.
Proof. apply omap_app. Qed.

Lemma after_nil (r : outcome (state * list reply)) : after [] r = r.
Proof. by destruct r as [[st out]| |]. Qed.

Lemma in_bounds_others (v : Z) (st : state) :
  in_bounds st →
  ∀ u s, u ≠ v → user_sessions st !! u = Some s →
         (current s < length (tasks s))%nat.
Proof. intros Hst u s _. apply Hst. Qed.

(** An update of the session of [v] followed by [send_task]. *)
Lemma moved_effect (pre : list reply) (v : Z) (st : state) (s s1 : session) :
  in_bounds st →
  user_sessions st !! v = Some s →
  move s s1 →
  (∀ u, reports u pre = [] ∧ questions u pre = []) →
  ∃ st' out,
    after pre (send_task v (with_sessions (insert v s1) st)) = Ok (st', out)
    ∧ in_bounds st'
    ∧ ∀ u, effect u (user_sessions st !! u) (user_sessions st' !! u) out.
Proof.
  intros Hst Hs Hmove Hpre.
  pose proof (Hst v s Hs) as Hb.
  assert (Hcur : (current s1 ≤ length (tasks s1))%nat).
  { destruct Hmove as [Ht Hc | t Hl Ht Hc _ _]; rewrite Ht, Hc; [lia|].
    rewrite length_app, length_delete by eauto. simpl. lia. }
  destruct (send_after_update v st s1 (in_bounds_others v st Hst) Hcur)
    as (r & o & Hp & Hsend & Hin & Hframe).
  exists (put v r st), (pre ++ o). rewrite Hsend. simpl.
  split; [done|]. split; [done|]. intros u.
  destruct (Hpre u) as [Hpr Hpq]. destruct (decide (u = v)) as [->|Hu].
  - rewrite Hs. replace (user_sessions (put v r st) !! v) with r.
    + apply (eff_move v s s1 r o); try done.
      * by rewrite reports_app, Hpr.
      * by rewrite questions_app, Hpq.
    + destruct r; simpl; [by rewrite lookup_insert_eq | by rewrite lookup_delete_eq].
  - destruct (Hframe u Hu) as (-> & Hr & Hq). apply eff_idle.
    + by rewrite reports_app, Hpr, Hr.
    + by rewrite questions_app, Hpq, Hq.
Qed.

Lemma process_answer_effect (chat v : Z) (data : pystr) (st : state) :
  in_bounds st →
  startswith (cps "ans:") data = true →
  ∃ st' out,
    process_answer chat v data st = Ok (st', out)
    ∧ in_bounds st'
    ∧ ∀ u, effect u (user_sessions st !! u) (user_sessions st' !! u) out.
Proof.
  intros Hst Hdata. unfold process_answer.
  destruct (user_sessions st !! v) as [s|] eqn:Hs.
  - destruct (lookup_lt_is_Some_2 (tasks s) (current s)) as [t Ht]; [by eapply Hst|].
    destruct (startswith_ans data Hdata) as (answer & _ & ->). rewrite Ht.
    case_decide; (eapply moved_effect; [done | done | | done]);
      apply move_answer; simpl; first [done | lia].
  - eexists _, _. split; [done|]. split; [done|]. intros u. by apply eff_idle.
Qed.

Lemma process_text_answer_effect (chat v : Z) (text : pystr) (st : state) :
  in_bounds st →
  ∃ st' out,
    process_text_answer chat v text st = Ok (st', out)
    ∧ in_bounds st'
    ∧ ∀ u, effect u (user_sessions st !! u) (user_sessions st' !! u) out.
Proof.
  intros Hst. unfold process_text_answer.
  destruct (user_sessions st !! v) as [s|] eqn:Hs.
  - destruct (waiting_text s); simpl.
    + destruct (lookup_lt_is_Some_2 (tasks s) (current s)) as [t Ht]; [by eapply Hst|].
      rewrite Ht.
      case_decide; (eapply moved_effect; [done | done | | done]);
        apply move_answer; simpl; first [done | lia].
    + eexists _, _. split; [done|]. split; [done|]. intros u. by apply eff_idle.
  - eexists _, _. split; [done|]. split; [done|]. intros u. by apply eff_idle.
Qed.

Lemma skip_task_effect (v : Z) (st : state) :
  in_bounds st →
  ∃ st' out,
    skip_task v st = Ok (st', out)
    ∧ in_bounds st'
    ∧ ∀ u, effect u (user_sessions st !! u) (user_sessions st' !! u) out.
Proof.
  intros Hst. unfold skip_task.
  destruct (user_sessions st !! v) as [s|] eqn:Hs.
  - destruct (lookup_lt_is_Some_2 (tasks s) (current s)) as [t Ht]; [by eapply Hst|].
    rewrite Ht.
    rewrite <- (after_nil (send_task v _)).
    eapply moved_effect; [done | done | | done].
    by apply (move_skip _ _ t).
  - eexists _, _. split; [done|]. split; [done|]. intros u. by apply eff_idle.
Qed.

Lemma main_menu_effect (pre : list reply) (v : Z) (st : state) :
  in_bounds st →
  (∀ u, reports u pre = [] ∧ questions u pre = []) →
  in_bounds (main_menu v st).1
  ∧ ∀ u, effect u (user_sessions st !! u)
           (user_sessions (main_menu v st).1 !! u) (pre ++ (main_menu v st).2).
Proof.
  intros Hst Hpre. split; [by apply in_bounds_delete|].
  intros u. simpl.
  assert (Hr : reports u (pre ++ [SendMessage v (Lit txt_menu) menu_kb]) = []).
  { by rewrite reports_app, (proj1 (Hpre u)). }
  assert (Hq : questions u (pre ++ [SendMessage v (Lit txt_menu) menu_kb]) = []).
  { by rewrite questions_app, (proj2 (Hpre u)). }
  rewrite lookup_delete. case_decide; by constructor.
Qed.

Lemma register_user_effect (o : oracle) (chat v : Z) (st : state) :
  in_bounds st →
  in_bounds (register_user o chat v st).1
  ∧ ∀ u, effect u (user_sessions st !! u)
           (user_sessions (register_user o chat v st).1 !! u)
           (register_user o chat v st).2.
Proof.
  intros Hst. unfold register_user.
  destruct (code_by_code o) as [|[data|]]; try (split; [done | by constructor]).
  destruct (telegram_id data) as [owner|].
  - case_decide; [|split; [done | by constructor]].
    apply (main_menu_effect [SendMessage chat (Lit txt_already_registered) []]);
      done.
  - destruct (code_update_error o); [split; [done | by constructor]|].
    apply (main_menu_effect [SendMessage chat (Lit txt_registered) []]); done.
Qed.

Lemma begin_test_effect (o : oracle) (v : Z) (st : state) :
  in_bounds st →
  ∃ st' out,
    begin_test o v st = Ok (st', out)
    ∧ in_bounds st'
    ∧ ∀ u, u ≠ v →
        effect u (user_sessions st !! u) (user_sessions st' !! u) out.
Proof.
  intros Hst. unfold begin_test.
  destruct (code_by_user o) as [|[row|]];
    try (eexists _, _; split; [done|]; split; [done|]; by constructor).
  destruct (load_tasks_from_supabase o) as [|t l] eqn:Hl;
    [eexists _, _; split; [done|]; split; [done|]; by constructor|].
  set (s1 := Session (shuffle (draws o) (t :: l)) 0 0 [] false).
  set (st0 := State (user_sessions st) (timers st ++ [v])).
  destruct (send_after_update v st0 s1) as (r & out & Hp & Hsend & Hin & Hframe).
  { intros u s _. apply Hst. }
  { simpl. lia. }
  exists (put v r st0), out. split; [exact Hsend|]. split; [done|].
  intros u Hu. destruct (Hframe u Hu) as (-> & Hr & Hq). by apply eff_idle.
Qed.

Lemma test_timer_effect (v : Z) (st : state) :
  in_bounds st →
  in_bounds (test_timer v st).1
  ∧ ∀ u, effect u (user_sessions st !! u)
           (user_sessions (test_timer v st).1 !! u) (test_timer v st).2.
Proof.
  intros Hst. unfold test_timer, show_results.
  destruct (user_sessions st !! v) as [s|] eqn:Hs.
  - rewrite decide_True by done. split; [by apply in_bounds_delete|].
    intros u. simpl. rewrite lookup_delete. case_decide as Hu.
    + subst u. rewrite Hs. apply eff_timer; simpl; by rewrite ?decide_True.
    + apply eff_idle; simpl; by rewrite ?decide_False.
  - rewrite decide_False by (by intros [? ?]). split; [done|].
    intros u. by apply eff_idle.
Qed.

(** Whatever the update, its handler returns, leaves every stored session
    in bounds, and has one of the four effects on the session of a user
    for whom the update does not start a test. *)
Lemma dispatch_effect (o : oracle) (ev : update) (st : state) :
  in_bounds st →
  ∃ st' out,
    dispatch o ev st = Ok (st', out)
    ∧ in_bounds st'
    ∧ ∀ u, ¬ starts_test u ev →
        effect u (user_sessions st !! u) (user_sessions st' !! u) out.
Proof.
  intros Hst. destruct ev as [chat v text | chat v data | i]; simpl.
  - destruct (matches_code text).
    { destruct (register_user_effect o chat v st Hst) as [Hin Heff].
      destruct (register_user o chat v st) as [st' out]. by exists st', out. }
    case_decide as Htest.
    { destruct (begin_test_effect o v st Hst) as (st' & out & -> & Hin & Heff).
      exists st', out. split; [done|]. split; [done|].
      intros u Hu. apply Heff. intros ->. by apply Hu. }
    destruct (process_text_answer_effect chat v text st Hst)
      as (st' & out & -> & Hin & Heff).
    exists st', out. eauto.
  - case_decide as Htest.
    { destruct (begin_test_effect o v st Hst) as (st' & out & -> & Hin & Heff).
      exists st', out. split; [done|]. split; [done|].
      intros u Hu. apply Heff. intros ->. by apply Hu. }
    destruct (startswith (cps "ans:") data) eqn:Hans.
    { destruct (process_answer_effect chat v data st Hst Hans)
        as (st' & out & -> & Hin & Heff).
      exists st', out. eauto. }
    case_decide.
    { destruct (skip_task_effect v st Hst) as (st' & out & -> & Hin & Heff).
      exists st', out. eauto. }
    case_decide.
    { destruct (main_menu_effect [] v st Hst) as [Hin Heff]; [done|].
      eexists _, _. split; [done|]. split; [exact Hin|]. intros u _. apply Heff. }
    eexists _, _. split; [done|]. split; [done|]. intros u _. by apply eff_idle.
  - destruct (timers st !! i) as [v|];
      [|eexists _, _; split; [done|]; split; [done|]; intros u _; by apply eff_idle].
    set (st0 := State (user_sessions st) (delete i (timers st))).
    destruct (test_timer_effect v st0 Hst) as [Hin Heff].
    destruct (test_timer v st0) as [st' out]. exists st', out. eauto.
Qed.

(** ** Runs *)

Lemma run_in_bounds (st : state) (evs : list (oracle * update)) :
  in_bounds st →
  ∃ st' out, run st evs = Ok (st', out) ∧ in_bounds st'.
Proof.
  revert st. induction evs as [|[o ev] evs IH]; intros st Hst; simpl.
  - by exists st, [].
  - destruct (dispatch_effect o ev st Hst) as (st1 & out1 & -> & Hin1 & _).
    destruct (IH st1 Hin1) as (st2 & out2 & -> & Hin2).
    by exists st2, (out1 ++ out2).
Qed.

(** ** Shuffling keeps the length *)

Lemma length_swap (i j : nat) (x : list task) : length (swap i j x) = length x.
Proof.
  unfold swap. destruct (x !! i), (x !! j); try done.
  by rewrite !length_insert.
Qed.

Lemma length_shuffle_from (i : nat) (ds : list nat) (x : list task) :
  length (shuffle_from i ds x) = length x.
Proof.
  revert ds x. induction i as [|i IH]; intros ds x; simpl; [done|].
  by rewrite IH, length_swap.
Qed.

Lemma length_shuffle (ds : list nat) (x : list task) :
  length (shuffle ds x) = length x.
Proof. apply length_shuffle_from. Qed.

(** ** Consequences of the four effects *)

Lemma effect_total (u : Z) (b a : option session) (out : list reply) (n : nat) :
  effect u b a out →
  (∀ s, b = Some s → length (tasks s) = n) →
  (∀ s, a = Some s → length (tasks s) = n)
  ∧ Forall (λ r, r.2 = n) (reports u out).
Proof.
  intros [b' out' Hr Hq | b' out' Hr Hq | s out' Hr Hq
         | s s1 r o out' Hb Hmove Hp Hr Hq] Hn.
  - rewrite Hr. by split.
  - rewrite Hr. by split.
  - rewrite Hr. split; [done|]. constructor; [|done]. simpl. by apply Hn.
  - assert (H1 : length (tasks s1) = n).
    { rewrite <- (Hn s eq_refl).
      destruct Hmove as [Ht _ | t Hl Ht _ _ _]; rewrite Ht; [done|].
      rewrite length_app, length_delete by eauto. simpl.
      apply lookup_lt_Some in Hl. lia. }
    rewrite Hr. destruct r as [s'|].
    + apply present_Some in Hp as (Ht & _ & _ & _ & _ & ->).
      split; [|done]. intros s2 [= <-]. by rewrite Ht.
    + apply present_None in Hp as [_ ->].
      split; [done|]. by constructor.
Qed.

Lemma effect_count (u : Z) (b a : option session) (out : list reply) :
  effect u b a out →
  (length (reports u out) ≤ 1)%nat
  ∧ (length (reports u out) = 1%nat → a = None ∧ is_Some b)
  ∧ (b = None → a = None ∧ reports u out = [] ∧ questions u out = []).
Proof.
  intros [b' out' Hr Hq | b' out' Hr Hq | s out' Hr Hq
         | s s1 r o out' Hb Hmove Hp Hr Hq]; rewrite Hr; simpl.
  - repeat split; try done; lia.
  - repeat split; try done; lia.
  - repeat split; try done; eauto.
  - destruct r as [s'|].
    + apply present_Some in Hp as (_ & _ & _ & _ & _ & ->). simpl.
      repeat split; try done; lia.
    + apply present_None in Hp as [_ ->]. simpl. repeat split; try done; eauto.
Qed.

(** ** Runs without a new test for a user *)

Lemma run_total (u : Z) (n : nat) (st : state) (evs : list (oracle * update)) :
  in_bounds st →
  no_restart u evs →
  (∀ s, user_sessions st !! u = Some s → length (tasks s) = n) →
  ∃ st' out,
    run st evs = Ok (st', out)
    ∧ in_bounds st'
    ∧ (∀ s, user_sessions st' !! u = Some s → length (tasks s) = n)
    ∧ Forall (λ r, r.2 = n) (reports u out).
Proof.
  revert st. induction evs as [|[o ev] evs IH]; intros st Hst Hevs Hn; simpl.
  - exists st, []. repeat split; done.
  - apply Forall_cons in Hevs as [Hev Hevs].
    destruct (dispatch_effect o ev st Hst) as (st1 & out1 & -> & Hin1 & Heff).
    destruct (effect_total u _ _ _ n (Heff u Hev) Hn) as [Hn1 Hr1].
    destruct (IH st1 Hin1 Hevs Hn1) as (st2 & out2 & -> & Hin2 & Hn2 & Hr2).
    exists st2, (out1 ++ out2). simpl. repeat split; try done.
    rewrite reports_app. by apply Forall_app.
Qed.

Lemma run_count (u : Z) (st : state) (evs : list (oracle * update)) :
  in_bounds st →
  no_restart u evs →
  ∃ st' out,
    run st evs = Ok (st', out)
    ∧ in_bounds st'
    ∧ (length (reports u out) ≤ 1)%nat
    ∧ (length (reports u out) = 1%nat →
       user_sessions st' !! u = None ∧ is_Some (user_sessions st !! u))
    ∧ (user_sessions st !! u = None →
       user_sessions st' !! u = None ∧ reports u out = []
       ∧ questions u out = []).
Proof.
  revert st. induction evs as [|[o ev] evs IH]; intros st Hst Hevs; simpl.
  - exists st, []. repeat split; try done; simpl; lia.
  - apply Forall_cons in Hevs as [Hev Hevs].
    destruct (dispatch_effect o ev st Hst) as (st1 & out1 & -> & Hin1 & Heff).
    destruct (effect_count u _ _ _ (Heff u Hev)) as (Hle1 & Hone1 & Hnone1).
    destruct (IH st1 Hin1 Hevs) as (st2 & out2 & -> & Hin2 & Hle2 & Hone2 & Hnone2).
    exists st2, (out1 ++ out2). simpl.
    rewrite reports_app, questions_app, length_app.
    split; [done|]. split; [done|].
    destruct (reports u out1) as [|r1 [|r1' l1]] eqn:E1; simpl in *; [| |lia].
    + split; [lia|]. split.
      * intros H. destruct (Hone2 H) as [Hnone Hsome]. split; [done|].
        destruct (user_sessions st !! u) eqn:Eb; [done|].
        destruct (Hnone1 eq_refl) as (Ha & _). rewrite Ha in Hsome.
        by destruct Hsome.
      * intros Hb. destruct (Hnone1 Hb) as (Ha & _ & ->).
        destruct (Hnone2 Ha) as (-> & -> & ->). done.
    + destruct (Hone1 eq_refl) as [Ha Hb].
      destruct (Hnone2 Ha) as (-> & -> & ->). simpl.
      split; [lia|]. split; [done|].
      intros Hnone. rewrite Hnone in Hb. by destruct Hb.
Qed.

(** ** The order in which questions are presented *)

Lemma comparable_nil {A} (b : list A) : comparable [] b.
Proof. left. apply prefix_nil. Qed.

Lemma comparable_app {A} (k a b : list A) :
  comparable a b → comparable (k ++ a) (k ++ b).
Proof. intros [H|H]; [left | right]; by apply prefix_app. Qed.

Lemma comparable_snoc {A} (a b : list A) (x : A) :
  comparable a (b ++ [x]) → comparable a b.
Proof.
  intros [[k Hk] | [k Hk]].
  - destruct k as [|y k _] using rev_ind.
    + right. exists [x]. by rewrite app_nil_r in Hk.
    + left. exists k. rewrite app_assoc in Hk. by apply app_inj_tail in Hk as [-> _].
  - right. exists ([x] ++ k). by rewrite Hk, <- app_assoc.
Qed.

Lemma tail_drop {A} (n : nat) (l : list A) : tail (drop n l) = drop (S n) l.
Proof.
  revert l. induction n as [|n IH]; intros [|x l]; simpl; done.
Qed.

Lemma remaining_answer (s s1 : session) :
  tasks s1 = tasks s → current s1 = S (current s) →
  remaining s1 = tail (remaining s).
Proof. unfold remaining. intros -> ->. by rewrite tail_drop. Qed.

Lemma remaining_skip (s s1 : session) (t : task) :
  tasks s !! current s = Some t →
  tasks s1 = delete (current s) (tasks s) ++ [t] →
  current s1 = current s →
  remaining s1 = tail (remaining s) ++ [t].
Proof.
  unfold remaining. intros Hl -> ->. apply lookup_lt_Some in Hl.
  rewrite tail_drop, delete_take_drop, <- app_assoc.
  apply drop_app_length'. rewrite length_take_le; lia.
Qed.

(** The questions [send_task] presents, followed by those of any later
    run of the session it leaves, continue the queue from [current] on. *)
Lemma after_present (u : Z) (s1 : session) (r : option session)
    (o : list reply) (later : list pystr) :
  present u (remaining s1) s1 = (r, o) →
  match r with
  | Some s' => comparable later (question_of <$> tail (remaining s'))
  | None => later = []
  end →
  comparable (questions u o ++ later) (question_of <$> remaining s1).
Proof.
  intros Hp Hlater. destruct r as [s'|].
  - apply present_Some in Hp as (Ht & _ & _ & Hc & -> & _).
    set (k := (current s' - current s1)%nat) in *.
    assert (Hrem : tail (remaining s') = drop (S k) (remaining s1)).
    { unfold remaining. rewrite tail_drop, Ht, drop_drop. f_equal. lia. }
    rewrite Hrem in Hlater.
    rewrite <- (take_drop (S k) (remaining s1)) at 2.
    rewrite fmap_app. by apply comparable_app.
  - apply present_None in Hp as [-> _]. subst later. rewrite app_nil_r. by left.
Qed.

Lemma effect_questions (u : Z) (s : session) (a : option session)
    (out : list reply) (later : list pystr) :
  effect u (Some s) a out →
  match a with
  | Some s' => comparable later (question_of <$> tail (remaining s'))
  | None => later = []
  end →
  comparable (questions u out ++ later) (question_of <$> tail (remaining s)).
Proof.
  intros Heff Hlater. inversion Heff as [b' out' Hr Hq | b' out' Hr Hq
    | s0 out' Hr Hq | s0 s1 r o out' Hb Hmove Hp Hr Hq]; subst; rewrite Hq.
  - done.
  - subst later. apply comparable_nil.
  - subst later. apply comparable_nil.
  - pose proof (after_present u s1 a o later Hp Hlater) as Hcmp.
    destruct Hmove as [Ht Hc | t Hl Ht Hc _ _].
    + by rewrite (remaining_answer s s1 Ht Hc) in Hcmp.
    + rewrite (remaining_skip s s1 t Hl Ht Hc), fmap_app in Hcmp.
      by apply comparable_snoc in Hcmp.
Qed.

Lemma run_questions (u : Z) (st : state) (evs : list (oracle * update)) :
  in_bounds st →
  no_restart u evs →
  ∃ st' out,
    run st evs = Ok (st', out)
    ∧ match user_sessions st !! u with
      | Some s => comparable (questions u out) (question_of <$> tail (remaining s))
      | None => questions u out = []
      end.
Proof.
  revert st. induction evs as [|[o ev] evs IH]; intros st Hst Hevs; simpl.
  - exists st, []. split; [done|]. destruct (user_sessions st !! u); [|done].
    apply comparable_nil.
  - apply Forall_cons in Hevs as [Hev Hevs].
    destruct (dispatch_effect o ev st Hst) as (st1 & out1 & -> & Hin1 & Heff).
    specialize (Heff u Hev).
    destruct (IH st1 Hin1 Hevs) as (st2 & out2 & -> & Hq2).
    exists st2, (out1 ++ out2). split; [done|]. rewrite questions_app.
    destruct (user_sessions st !! u) as [s|] eqn:Hs.
    + by apply (effect_questions u s (user_sessions st1 !! u)).
    + destruct (effect_count u _ _ _ Heff) as (_ & _ & Hnone).
      destruct (Hnone eq_refl) as (Ha & _ & ->). by rewrite Ha in Hq2.
Qed.

(** ** The claims about positions, totals and finalisation *)

Lemma in_bounds_initial : in_bounds initial.
Proof. intros u s. simpl. by rewrite lookup_empty. Qed.

Lemma move_bound (s s1 : session) :
  (current s < length (tasks s))%nat → move s s1 →
  (current s1 ≤ length (tasks s1))%nat.
Proof.
  intros Hb [Ht Hc | t Hl Ht Hc _ _]; rewrite Ht, Hc; [lia|].
  rewrite length_app, length_delete by eauto. simpl. lia.
Qed.

Lemma send_task_exhausted (u : Z) (st : state) (s1 : session) :
  (length (tasks s1) ≤ current s1)%nat →
  send_task u (with_sessions (insert u s1) st)
  = Ok (with_sessions (delete u) st,
        [SendMessage u (Results (correct s1) (length (tasks s1)) (wrong s1))
           results_kb]).
Proof.
  intros Hlen.
  rewrite (send_task_present u _ s1) by apply lookup_insert_eq.
  rewrite drop_ge by done.
  cbn [present fst snd]. by rewrite (put_insert u None s1 st).
Qed.

(** C9: in every state the bot can reach from its start, whatever the
    updates and the answers of the outside world, each stored session has
    [current] strictly below the length of its queue; hence the answer,
    skip and text handlers, which index the queue without a guard, return
    normally there.  A handler moves [current] to at most the length of
    the queue, and when it reaches the length, the [send_task] that
    follows removes the session at once. *)
Theorem position_in_bounds (evs : list (oracle * update)) :
  ∃ st out,
    run initial evs = Ok (st, out)
    ∧ in_bounds st
    ∧ (∀ chat u answer text,
         (∃ r, process_answer chat u (cps "ans:" ++ answer) st = Ok r)
         ∧ (∃ r, skip_task u st = Ok r)
         ∧ (∃ r, process_text_answer chat u text st = Ok r))
    ∧ (∀ u s s1,
         user_sessions st !! u = Some s → move s s1 →
         (current s1 ≤ length (tasks s1))%nat
         ∧ (current s1 = length (tasks s1) →
            ∃ out', send_task u (with_sessions (insert u s1) st)
                    = Ok (with_sessions (delete u) st, out'))).
Proof.
  destruct (run_in_bounds initial evs in_bounds_initial) as (st & out & Hrun & Hst).
  exists st, out. split; [done|]. split; [done|]. split.
  - intros chat u answer text. repeat split.
    + destruct (process_answer_effect chat u (cps "ans:" ++ answer) st Hst)
        as (st' & out' & -> & _); [done|]. by eexists.
    + destruct (skip_task_effect u st Hst) as (st' & out' & -> & _). by eexists.
    + destruct (process_text_answer_effect chat u text st Hst)
        as (st' & out' & -> & _). by eexists.
  - intros u s s1 Hs Hmove. split; [by eapply move_bound; [eapply Hst|]|].
    intros Heq. eexists. apply send_task_exhausted. lia.
Qed.

(** A successful [begin_test] stores a fresh session on the shuffled task
    list and hands it to [send_task]. *)
Lemma begin_test_start (o : oracle) (row : code_row) (u : Z) (st : state) :
  in_bounds st →
  code_by_user o = DbData (Some row) →
  load_tasks_from_supabase o ≠ [] →
  let s1 := Session (shuffle (draws o) (load_tasks_from_supabase o)) 0 0 [] false in
  let st0 := State (user_sessions st) (timers st ++ [u]) in
  ∃ r out,
    present u (remaining s1) s1 = (r, out)
    ∧ begin_test o u st = Ok (put u r st0, out)
    ∧ in_bounds (put u r st0).
Proof.
  intros Hst Hreg Hl s1 st0. unfold begin_test. rewrite Hreg.
  destruct (load_tasks_from_supabase o) as [|t l] eqn:El; [done|].
  destruct (send_after_update u st0 s1) as (r & out & Hp & Hsend & Hin & _).
  { intros v s _. apply Hst. }
  { simpl. lia. }
  by exists r, out.
Qed.

Lemma dispatch_starts_test (o : oracle) (u : Z) (ev : update) (st : state) :
  starts_test u ev → dispatch o ev st = begin_test o u st.
Proof.
  destruct ev as [chat v text | chat v data | i]; simpl; [| |done].
  - intros [-> ->]. done.
  - intros [-> ->]. done.
Qed.

Lemma show_results_absent (u : Z) (st : state) :
  user_sessions (show_results u st).1 !! u = None.
Proof.
  unfold show_results. destruct (user_sessions st !! u) eqn:Hs; simpl; [|done].
  apply lookup_delete_eq.
Qed.

Lemma show_results_in_bounds (u : Z) (st : state) :
  in_bounds (with_sessions (delete u) st) → in_bounds (show_results u st).1.
Proof.
  unfold show_results. destruct (user_sessions st !! u) eqn:Hs; simpl; [done|].
  intros Hin v s Hv. apply (Hin v s). simpl.
  rewrite lookup_delete_ne; [done|]. intros ->. by rewrite Hs in Hv.
Qed.

(** C2: finalisation happens once.  Both ways of finalising a stored
    session, the timer and the exhaustion of the queue seen by
    [send_task], are [show_results], which sends exactly one summary and
    removes the session.  In the state it leaves the user is absent, a
    second [show_results] does nothing, and no run of later events (timer
    wake-ups, answers, skips, texts, menu clicks, events of other users)
    that does not start a new test brings the session back or sends the
    user another summary.  In any run that does not start a new test for
    the user, the user gets at most one summary, and if there is one the
    user is absent from the store at the end. *)
Theorem session_finalizes_once (u : Z) (st : state) (evs : list (oracle * update)) :
  in_bounds (with_sessions (delete u) st) →
  no_restart u evs →
  (∀ s, user_sessions st !! u = Some s →
     show_results u st
     = (with_sessions (delete u) st,
        [SendMessage u (Results (correct s) (length (tasks s)) (wrong s))
           results_kb])
     ∧ test_timer u st = show_results u st
     ∧ ((length (tasks s) ≤ current s)%nat →
        send_task u st = Ok (show_results u st)))
  ∧ user_sessions (show_results u st).1 !! u = None
  ∧ show_results u (show_results u st).1 = ((show_results u st).1, [])
  ∧ (∃ st' out,
       run (show_results u st).1 evs = Ok (st', out)
       ∧ user_sessions st' !! u = None ∧ reports u out = [])
  ∧ (in_bounds st →
     ∃ st' out,
       run st evs = Ok (st', out)
       ∧ (length (reports u out) ≤ 1)%nat
       ∧ (length (reports u out) = 1%nat → user_sessions st' !! u = None)).
Proof.
  intros Hothers Hevs. split; [|split; [|split; [|split]]].
  - intros s Hs. split; [|split].
    + unfold show_results. by rewrite Hs.
    + unfold test_timer. by rewrite decide_True by (by rewrite Hs).
    + intros Hlen. unfold send_task, queue_length. rewrite Hs. simpl.
      rewrite Hs. by rewrite decide_True.
  - apply show_results_absent.
  - pose proof (show_results_absent u st) as Habs.
    unfold show_results at 1. by rewrite Habs.
  - destruct (run_count u _ evs (show_results_in_bounds u st Hothers) Hevs)
      as (st' & out & Hrun & _ & _ & _ & Hnone).
    destruct (Hnone (show_results_absent u st)) as (Ha & Hr & _).
    by exists st', out.
  - intros Hst.
    destruct (run_count u st evs Hst Hevs) as (st' & out & Hrun & _ & Hle & Hone & _).
    exists st', out. split; [done|]. split; [done|]. intros H. by apply Hone.
Qed.

Lemma dispatch_skip (o : oracle) (chat u : Z) (st : state) :
  dispatch o (CallbackQuery chat u (cps "skip")) st = skip_task u st.
Proof. reflexivity. Qed.

(** C5: for a stored session whose [current] points at a task [t], a skip
    hands to [send_task] a session with the same [current] whose queue is
    the old one with [t] removed from position [current] and appended at
    the end.  So the queue keeps its length, the tasks before [current]
    stay, the task that was next (if any) is now at [current], and [t] is
    last, after every other remaining task; when [t] was the only task
    left it is at [current] again.  From the skip on, until a new test
    starts for the user, the questions presented to the user follow that
    order: first the other remaining tasks, then [t]. *)
Theorem skip_moves_task_to_end
    (o : oracle) (chat u : Z) (st : state) (s : session) (t : task)
    (evs : list (oracle * update)) :
  in_bounds st →
  user_sessions st !! u = Some s →
  tasks s !! current s = Some t →
  no_restart u evs →
  let s1 :=
    set_waiting_text false (set_tasks (delete (current s) (tasks s) ++ [t]) s) in
  skip_task u st = send_task u (with_sessions (insert u s1) st)
  ∧ current s1 = current s
  ∧ length (tasks s1) = length (tasks s)
  ∧ take (current s) (tasks s1) = take (current s) (tasks s)
  ∧ remaining s1 = drop (S (current s)) (tasks s) ++ [t]
  ∧ (∀ t', tasks s !! S (current s) = Some t' → tasks s1 !! current s = Some t')
  ∧ (length (tasks s) = S (current s) → tasks s1 !! current s = Some t)
  ∧ ∃ st' out,
      run st ((o, CallbackQuery chat u (cps "skip")) :: evs) = Ok (st', out)
      ∧ comparable (questions u out)
          (question_of <$> (drop (S (current s)) (tasks s) ++ [t])).
Proof.
  intros Hst Hs Ht Hevs s1.
  pose proof (lookup_lt_Some _ _ _ Ht) as Hlt.
  assert (Hskip : skip_task u st = send_task u (with_sessions (insert u s1) st)).
  { unfold skip_task. by rewrite Hs, Ht. }
  assert (Hrem : remaining s1 = drop (S (current s)) (tasks s) ++ [t]).
  { rewrite (remaining_skip s s1 t Ht eq_refl eq_refl). unfold remaining.
    by rewrite tail_drop. }
  assert (Hat : ∀ i, tasks s1 !! (current s + i)%nat
                     = (drop (S (current s)) (tasks s) ++ [t]) !! i).
  { intros i. rewrite <- Hrem. unfold remaining. by rewrite lookup_drop. }
  split; [done|]. split; [done|]. split; [|split; [|split; [done|split; [|split]]]].
  - simpl. rewrite length_app, length_delete by eauto. simpl. lia.
  - simpl. rewrite delete_take_drop, <- app_assoc.
    rewrite take_app_length' by (rewrite length_take_le; lia). done.
  - intros t' Ht'. specialize (Hat O). rewrite Nat.add_0_r in Hat. rewrite Hat.
    rewrite lookup_app_l by (rewrite length_drop; apply lookup_lt_Some in Ht'; lia).
    rewrite lookup_drop. by rewrite Nat.add_0_r.
  - intros Hlast. specialize (Hat O). rewrite Nat.add_0_r in Hat. rewrite Hat.
    by rewrite drop_ge by lia.
  - cbn [run]. rewrite dispatch_skip, Hskip.
    destruct (send_after_update u st s1 (in_bounds_others u st Hst))
      as (r & o1 & Hp & -> & Hin & _).
    { simpl. rewrite length_app, length_delete by eauto. simpl. lia. }
    destruct (run_questions u (put u r st) evs Hin Hevs) as (st2 & out2 & -> & Hq).
    exists st2, (o1 ++ out2). split; [done|].
    rewrite questions_app, <- Hrem. apply (after_present u s1 r o1); [done|].
    destruct r as [s'|]; simpl in Hq.
    + by rewrite lookup_insert_eq in Hq.
    + by rewrite lookup_delete_eq in Hq.
Qed.

(** ** The claims about single handlers *)

Lemma after_colon_ans (answer : pystr) :
  after_colon (cps "ans:" ++ answer) = Some answer.
Proof. done. Qed.

(** [send_task] changes neither the score nor the list of misses. *)
Lemma send_task_keeps_score (u : Z) (st st' : state) (s1 s' : session)
    (out : list reply) :
  send_task u (with_sessions (insert u s1) st) = Ok (st', out) →
  user_sessions st' !! u = Some s' →
  correct s' = correct s1 ∧ wrong s' = wrong s1 ∧ tasks s' = tasks s1.
Proof.
  rewrite (send_task_present u _ s1) by apply lookup_insert_eq.
  destruct (present u (drop (current s1) (tasks s1)) s1) as [r o] eqn:Hp.
  simpl. rewrite put_insert. intros [= <- <-].
  destruct r as [s2|]; simpl.
  - rewrite lookup_insert_eq. intros [= <-].
    by apply present_Some in Hp as (? & ? & ? & _).
  - by rewrite lookup_delete_eq.
Qed.

(** C3, as the code has it: when an answer reaches a stored session with
    a current task, the handler compares the normalised submission with a
    normalised reference text.  For a button answer the reference is
    [str] of the answer of the task (the text None when the key is missing
    or null, the decimal text of a number); for a text answer to a session
    that waits for text it is the answer of the task itself, the empty
    text when the key is missing (a value that is no text normalises to
    the empty text).  When the answer of the task is a text, both
    references are its normalised form.  If submission and reference are
    equal [correct] grows by one and [wrong] stays; otherwise [correct]
    stays and the (question, explanation) pair of the current task is
    appended to [wrong].  In both cases [current] grows by one and
    [waiting_text] is false in the session handed to [send_task], and
    [send_task] changes neither [correct] nor [wrong]. *)
Theorem answer_is_judged
    (chat u : Z) (raw : pystr) (st : state) (s : session) (t : task) :
  user_sessions st !! u = Some s →
  tasks s !! current s = Some t →
  (∃ s1 fb,
     judged raw (normalize_answer (PStr (py_str (get (t_answer t))))) t s s1 fb
     ∧ process_answer chat u (cps "ans:" ++ raw) st
       = after [SendMessage chat (Lit fb) []]
           (send_task u (with_sessions (insert u s1) st)))
  ∧ (waiting_text s = true →
     ∃ s1 fb,
       judged raw (normalize_answer (get_or (t_answer t) (PStr []))) t s s1 fb
       ∧ process_text_answer chat u raw st
         = after [SendMessage chat (Lit fb) []]
             (send_task u (with_sessions (insert u s1) st)))
  ∧ (∀ e, t_answer t = Some (PStr e) →
       normalize_answer (PStr (py_str (get (t_answer t))))
       = normalize_answer (PStr e)
       ∧ normalize_answer (get_or (t_answer t) (PStr []))
         = normalize_answer (PStr e))
  ∧ (∀ s1 st' out s',
       send_task u (with_sessions (insert u s1) st) = Ok (st', out) →
       user_sessions st' !! u = Some s' →
       correct s' = correct s1 ∧ wrong s' = wrong s1).
Proof.
  intros Hs Ht. split; [|split; [|split]].
  - unfold process_answer. rewrite Hs, Ht, after_colon_ans.
    cbn -[normalize_answer send_task after get]. unfold judged.
    case_decide; eexists _, _; (split; [|reflexivity]);
      cbn -[normalize_answer get]; rewrite ?decide_True, ?decide_False by done; done.
  - intros Hw. unfold process_text_answer. rewrite Hs, Hw, Ht.
    cbn -[normalize_answer send_task after get_or].
    rewrite normalize_answer_strip. unfold judged.
    case_decide; eexists _, _; (split; [|reflexivity]);
      cbn -[normalize_answer get_or];
      rewrite ?decide_True, ?decide_False by done; done.
  - by intros e ->.
  - intros s1 st' out s' Hsend Hs'.
    by destruct (send_task_keeps_score u st st' s1 s' out Hsend Hs') as (? & ? & _).
Qed.

(** C10: a button answer is scored whenever the user has a stored session,
    whatever [waiting_text] says and whatever label the callback carries:
    no check relates the label to the options of the current task.  The
    label is compared with [str] of the answer of the task at [current],
    and [current] then grows by one. *)
Theorem button_answer_scores_current_task
    (chat u : Z) (label : pystr) (st : state) (s : session) (t : task) :
  user_sessions st !! u = Some s →
  tasks s !! current s = Some t →
  (∃ s1 fb,
     scored label (py_str (get (t_answer t))) t s s1 fb
     ∧ process_answer chat u (cps "ans:" ++ label) st
       = after [SendMessage chat (Lit fb) []]
           (send_task u (with_sessions (insert u s1) st)))
  ∧ ∀ b, process_answer chat u (cps "ans:" ++ label)
           (with_sessions (insert u (set_waiting_text b s)) st)
         = process_answer chat u (cps "ans:" ++ label) st.
Proof.
  intros Hs Ht. split.
  - unfold process_answer. rewrite Hs, Ht, after_colon_ans.
    cbn -[normalize_answer send_task after get]. unfold scored.
    case_decide; eexists _, _; (split; [|reflexivity]);
      cbn -[normalize_answer get]; rewrite ?decide_True, ?decide_False by done; done.
  - intros b. unfold process_answer. cbn [user_sessions with_sessions].
    rewrite lookup_insert_eq, Hs. cbn [tasks current set_waiting_text].
    rewrite Ht, after_colon_ans.
    assert (Hst : ∀ s1, with_sessions (insert u s1)
                          (with_sessions (insert u (set_waiting_text b s)) st)
                        = with_sessions (insert u s1) st).
    { intros s1. unfold with_sessions. simpl. by rewrite insert_insert_eq. }
    cbn -[normalize_answer send_task after get with_sessions].
    case_decide; cbn -[send_task after with_sessions]; by rewrite Hst.
Qed.

(** C6: the catch-all text handler evaluates a message as an answer only
    for a user with a stored session whose [waiting_text] is true; without
    a session, or with the flag false, it returns the state as it was and
    sends nothing.  The dispatcher hands it every text that is neither a
    registration code nor the test command. *)
Theorem text_is_answer_only_when_waiting
    (o : oracle) (chat u : Z) (text : pystr) (st : state) :
  (¬ (∃ s, user_sessions st !! u = Some s ∧ waiting_text s = true) →
   process_text_answer chat u text st = Ok (st, []))
  ∧ (process_text_answer chat u text st ≠ Ok (st, []) →
     ∃ s, user_sessions st !! u = Some s ∧ waiting_text s = true)
  ∧ (matches_code text = false → text ≠ cps "/test" →
     dispatch o (Message chat u text) st = process_text_answer chat u text st).
Proof.
  assert (H1 : ¬ (∃ s, user_sessions st !! u = Some s ∧ waiting_text s = true) →
               process_text_answer chat u text st = Ok (st, [])).
  { intros Hno. unfold process_text_answer.
    destruct (user_sessions st !! u) as [s|] eqn:Hs; [|done].
    destruct (waiting_text s) eqn:Hw; [|done].
    exfalso. apply Hno. by exists s. }
  split; [exact H1|]. split.
  - intros Hne.
    destruct (user_sessions st !! u) as [s|] eqn:Hs.
    + destruct (waiting_text s) eqn:Hw; [by exists s|].
      exfalso. apply Hne, H1. intros (s' & [= <-] & Hw'). congruence.
    + exfalso. apply Hne, H1. by intros (s' & ? & _).
  - intros Hcode Htest. simpl. rewrite Hcode. by rewrite decide_False.
Qed.

(** C7: for a registered user, [begin_test] with no task from the task
    bank (an empty table or a failed load) sends exactly one message, the
    no-tasks text, which differs from the texts of the other two failures
    of [begin_test]; it leaves the state as it was, stores no session and
    starts no timer, so a user without a session stays without one. *)
Theorem begin_test_without_tasks
    (o : oracle) (row : code_row) (u : Z) (st : state) :
  code_by_user o = DbData (Some row) →
  load_tasks_from_supabase o = [] →
  begin_test o u st = Ok (st, [SendMessage u (Lit txt_no_tasks) []])
  ∧ txt_no_tasks ≠ txt_not_registered
  ∧ txt_no_tasks ≠ txt_server_error
  ∧ (user_sessions st !! u = None →
     ∀ st' out, begin_test o u st = Ok (st', out) →
                user_sessions st' !! u = None ∧ timers st' = timers st).
Proof.
  intros Hreg Hl.
  assert (H : begin_test o u st = Ok (st, [SendMessage u (Lit txt_no_tasks) []])).
  { unfold begin_test. by rewrite Hreg, Hl. }
  split; [exact H|]. split; [done|]. split; [done|].
  intros Hnone st' out. rewrite H. by intros [= <- <-].
Qed.

(** ** The exact form of a handler run *)

Lemma moved_shape (ev : update) (pre : list reply) (v chat : Z) (st : state)
    (s : session) (t : task) (s1 : session) :
  actor ev = Some (v, chat) → ¬ starts_test v ev →
  user_sessions st !! v = Some s → tasks s !! current s = Some t →
  s1 = answered true t s ∨ s1 = answered false t s ∨ s1 = skipped t s →
  Forall literal pre → Forall (λ r, chat_of r = chat) pre →
  ∃ st' out,
    after pre (send_task v (with_sessions (insert v s1) st)) = Ok (st', out)
    ∧ shape ev st st' out.
Proof.
  intros Hact Hns Hs Ht Hs1 Hlit Hchat.
  rewrite (send_task_present v _ s1) by apply lookup_insert_eq.
  fold (remaining s1).
  destruct (present v (remaining s1) s1) as [r o] eqn:Hp.
  cbn [after fst snd]. rewrite put_insert.
  eexists _, _. split; [done|]. by eapply sh_move.
Qed.

Lemma process_answer_shape (chat v : Z) (data : pystr) (st : state) :
  in_bounds st →
  startswith (cps "ans:") data = true →
  data ≠ cps "start_test" →
  ∃ st' out,
    process_answer chat v data st = Ok (st', out)
    ∧ shape (CallbackQuery chat v data) st st' out.
Proof.
  intros Hst Hdata Hns. unfold process_answer.
  destruct (user_sessions st !! v) as [s|] eqn:Hs.
  - destruct (lookup_lt_is_Some_2 (tasks s) (current s)) as [t Ht]; [by eapply Hst|].
    destruct (startswith_ans data Hdata) as (answer & _ & ->). rewrite Ht.
    cbn -[normalize_answer send_task after].
    case_decide.
    + apply (moved_shape _ _ v chat st s t (answered true t s));
        [done | by intros [_ ?] | done | done | auto
        | by repeat constructor | by repeat constructor].
    + apply (moved_shape _ _ v chat st s t (answered false t s));
        [done | by intros [_ ?] | done | done | auto
        | by repeat constructor | by repeat constructor].
  - eexists _, _. split; [done|]. apply sh_quiet; [done| | |done].
    + by repeat constructor.
    + intros v' chat' [= <- <-]. constructor; [by left | constructor].
Qed.

Lemma process_text_answer_shape (chat v : Z) (text : pystr) (st : state) :
  in_bounds st →
  text ≠ cps "/test" →
  ∃ st' out,
    process_text_answer chat v text st = Ok (st', out)
    ∧ shape (Message chat v text) st st' out.
Proof.
  intros Hst Hns. unfold process_text_answer.
  assert (Hq : shape (Message chat v text) st st []).
  { apply sh_quiet; [done|constructor| |done]. intros ? ? _. constructor. }
  destruct (user_sessions st !! v) as [s|] eqn:Hs; [|by eexists _, _].
  destruct (waiting_text s); cbn [negb]; [|by eexists _, _].
  destruct (lookup_lt_is_Some_2 (tasks s) (current s)) as [t Ht]; [by eapply Hst|].
  rewrite Ht. cbn -[normalize_answer send_task after].
  case_decide.
  - apply (moved_shape _ _ v chat st s t (answered true t s));
      [done | by intros [_ ?] | done | done | auto
      | by repeat constructor | by repeat constructor].
  - apply (moved_shape _ _ v chat st s t (answered false t s));
      [done | by intros [_ ?] | done | done | auto
      | by repeat constructor | by repeat constructor].
Qed.

Lemma skip_task_shape (chat v : Z) (st : state) :
  in_bounds st →
  ∃ st' out,
    skip_task v st = Ok (st', out)
    ∧ shape (CallbackQuery chat v (cps "skip")) st st' out.
Proof.
  intros Hst. unfold skip_task.
  destruct (user_sessions st !! v) as [s|] eqn:Hs.
  - destruct (lookup_lt_is_Some_2 (tasks s) (current s)) as [t Ht]; [by eapply Hst|].
    rewrite Ht. rewrite <- (after_nil (send_task v _)).
    apply (moved_shape _ _ v chat st s t (skipped t s));
      [done | by intros [_ ?] | done | done | auto | constructor | constructor].
  - eexists _, _. split; [done|]. apply sh_quiet; [done|constructor| |done].
    intros ? ? _. constructor.
Qed.

Lemma main_menu_shape (ev : update) (pre : list reply) (v chat : Z) (st : state) :
  actor ev = Some (v, chat) → ¬ starts_test v ev →
  Forall literal pre → Forall (λ r, chat_of r = chat) pre →
  shape ev st (main_menu v st).1 (pre ++ (main_menu v st).2).
Proof.
  intros Hact Hns Hlit Hchat. eapply sh_menu; [done|done|done| |].
  - apply Forall_app. split; [done|]. by repeat constructor.
  - apply Forall_app. split.
    + eapply Forall_impl; [exact Hchat|]. intros r Hr. by left.
    + constructor; [by right | constructor].
Qed.

Lemma register_user_shape (o : oracle) (chat v : Z) (text : pystr) (st : state) :
  matches_code text = true →
  shape (Message chat v text) st (register_user o chat v st).1
    (register_user o chat v st).2.
Proof.
  intros Hcode.
  assert (Hns : ¬ starts_test v (Message chat v text)).
  { intros [_ ->]. by vm_compute in Hcode. }
  assert (Hq : ∀ txt, shape (Message chat v text) st st
                        [SendMessage chat (Lit txt) []]).
  { intros txt. apply sh_quiet; [done| | |done].
    - by repeat constructor.
    - intros v' chat' [= <- <-]. constructor; [by left | constructor]. }
  unfold register_user.
  destruct (code_by_code o) as [|[data|]]; try apply Hq.
  destruct (telegram_id data) as [owner|].
  - case_decide; [|apply Hq].
    apply (main_menu_shape _ [SendMessage chat (Lit txt_already_registered) []]
             v chat st); try done; by repeat constructor.
  - destruct (code_update_error o); [apply Hq|].
    apply (main_menu_shape _ [SendMessage chat (Lit txt_registered) []]
             v chat st); try done; by repeat constructor.
Qed.

Lemma begin_test_shape (ev : update) (o : oracle) (v chat : Z) (st : state) :
  actor ev = Some (v, chat) → starts_test v ev →
  ∃ st' out, begin_test o v st = Ok (st', out) ∧ shape ev st st' out.
Proof.
  intros Hact Hstart. unfold begin_test.
  assert (Hq : ∀ txt, shape ev st st [SendMessage v (Lit txt) []]).
  { intros txt. apply sh_quiet; [done| | |].
    - by repeat constructor.
    - rewrite Hact. intros v' chat' [= <- <-]. constructor; [by right | constructor].
    - by rewrite Hact. }
  destruct (code_by_user o) as [|[row|]]; try by eexists _, _.
  destruct (load_tasks_from_supabase o) as [|t l] eqn:Hl; [by eexists _, _|].
  set (s1 := Session (shuffle (draws o) (t :: l)) 0 0 [] false).
  set (st0 := State (user_sessions st) (timers st ++ [v])).
  change (State (<[v:=s1]> (user_sessions st)) (timers st ++ [v]))
    with (with_sessions (insert v s1) st0).
  rewrite (send_task_present v _ s1) by apply lookup_insert_eq.
  destruct (present v (drop (current s1) (tasks s1)) s1) as [r out] eqn:Hp.
  cbn [fst snd]. rewrite put_insert.
  eexists _, _. split; [done|].
  by apply (sh_start ev st _ _ v chat (t :: l) (draws o) r out).
Qed.

Lemma dispatch_shape (o : oracle) (ev : update) (st : state) :
  in_bounds st →
  ∃ st' out, dispatch o ev st = Ok (st', out) ∧ shape ev st st' out.
Proof.
  intros Hst. destruct ev as [chat v text | chat v data | i]; cbn [dispatch].
  - destruct (matches_code text) eqn:Hcode.
    { pose proof (register_user_shape o chat v text st Hcode) as Hsh.
      destruct (register_user o chat v st) as [st' out]. by exists st', out. }
    case_decide as Htest.
    { by apply (begin_test_shape _ o v chat). }
    by apply process_text_answer_shape.
  - case_decide as Htest.
    { by apply (begin_test_shape _ o v chat). }
    destruct (startswith (cps "ans:") data) eqn:Hans.
    { by apply process_answer_shape. }
    case_decide as Hskip.
    { subst data. by apply skip_task_shape. }
    case_decide as Hmenu.
    { eexists _, _. split; [done|].
      apply (main_menu_shape _ [] v chat st); try done. by intros [_ ?]. }
    eexists _, _. split; [done|]. apply sh_quiet; [done|constructor| |done].
    intros ? ? _. constructor.
  - destruct (timers st !! i) as [v|] eqn:Hi.
    + unfold test_timer, show_results. cbn [user_sessions].
      destruct (user_sessions st !! v) as [s|] eqn:Hs.
      * rewrite decide_True by done. eexists _, _. split; [done|].
        by eapply sh_timer_final.
      * rewrite decide_False by (by intros [? ?]). eexists _, _. split; [done|].
        by eapply sh_timer_idle.
    + eexists _, _. split; [done|]. apply sh_quiet; [done|constructor|done|done].
Qed.

(** ** Sessions at rest *)

Lemma drop_cons_inv {A} (n : nat) (l k : list A) (x : A) :
  drop n l = x :: k → l !! n = Some x ∧ drop (S n) l = k.
Proof.
  intros H. split.
  - pose proof (lookup_drop l n 0) as E. rewrite H, Nat.add_0_r in E. by rewrite <- E.
  - by rewrite <- tail_drop, H.
Qed.

Lemma literal_fair (out : list reply) : Forall literal out → Forall fair out.
Proof.
  intros H. eapply Forall_impl; [exact H|]. by intros [c [] kb].
Qed.

Lemma present_at_rest (u : Z) (rest : list task) (s : session)
    (r : option session) (o : list reply) :
  present u rest s = (r, o) →
  rest = remaining s →
  waiting_text s = false →
  (correct s + length (wrong s) ≤ current s)%nat →
  (current s ≤ length (tasks s))%nat →
  Forall fair o
  ∧ Forall (λ m, chat_of m = u) o
  ∧ ∀ s', r = Some s' → well_formed s'.
Proof.
  revert s r o. induction rest as [|t rest IH]; intros s r o; simpl.
  - intros [= <- <-] _ _ Hscore Hcur. split; [|split; [|done]].
    + constructor; [|done]. simpl. lia.
    + by repeat constructor.
  - intros Hp Hrest Hw Hscore Hcur. symmetry in Hrest.
    apply drop_cons_inv in Hrest as [Ht Hrest].
    repeat case_decide.
    + injection Hp as <- <-. split; [by repeat constructor|].
      split; [by repeat constructor|]. intros s' [= <-]. exists t. eauto.
    + injection Hp as <- <-. split; [by repeat constructor|].
      split; [by repeat constructor|]. intros s' [= <-]. exists t.
      split; [done|]. split; [done|]. right. by split.
    + specialize (IH (set_current (current s + 1) s)).
      destruct (present u rest (set_current (current s + 1) s)) as [r1 o1].
      injection Hp as <- <-.
      apply lookup_lt_Some in Ht as Hlt.
      destruct (IH r1 o1 eq_refl) as (Hf & Hc & Hwf).
      * unfold remaining. simpl. rewrite <- Hrest. f_equal. lia.
      * done.
      * simpl. lia.
      * simpl. lia.
      * split; [by constructor|]. split; [by constructor|]. done.
Qed.

Lemma well_formed_in_bounds (s : session) :
  well_formed s → (current s < length (tasks s))%nat.
Proof. intros (t & Ht & _). by eapply lookup_lt_Some. Qed.

Lemma at_rest_in_bounds (st : state) : at_rest st → in_bounds st.
Proof. intros Hst u s Hs. apply well_formed_in_bounds. by apply (Hst u s). Qed.

Lemma elem_of_delete_other {A} (l : list A) (i : nat) (x y : A) :
  x ∈ l → l !! i = Some y → x ≠ y → x ∈ delete i l.
Proof.
  intros Hx Hi Hne. apply (delete_Permutation l i y) in Hi.
  rewrite Hi in Hx. by apply elem_of_cons in Hx as [?|?].
Qed.

Lemma moved_ready (s : session) (t : task) (s1 : session) :
  well_formed s → tasks s !! current s = Some t →
  s1 = answered true t s ∨ s1 = answered false t s ∨ s1 = skipped t s →
  waiting_text s1 = false
  ∧ (correct s1 + length (wrong s1) ≤ current s1)%nat
  ∧ (current s1 ≤ length (tasks s1))%nat.
Proof.
  intros (t' & Ht' & Hscore & _) Ht Hs1. apply lookup_lt_Some in Ht as Hlt.
  destruct Hs1 as [-> | [-> | ->]]; simpl; rewrite ?length_app, ?length_delete by eauto;
    simpl; repeat split; lia.
Qed.

Lemma shape_at_rest (ev : update) (st st' : state) (out : list reply) :
  at_rest st → shape ev st st' out → at_rest st' ∧ Forall fair out.
Proof.
  intros Hst [-> Hlit _ _ | v chat _ _ -> Hlit _ | i v _ Hi Hnone -> ->
             | i v s _ Hi Hs -> -> | v chat s t s1 pre r o _ _ Hs Ht Hs1 Hlit _ Hp -> ->
             | v chat l ds r o _ _ Hl Hp -> ->].
  - split; [done|]. by apply literal_fair.
  - split; [|by apply literal_fair]. intros u s. simpl.
    rewrite lookup_delete. case_decide; [done|]. apply Hst.
  - split; [|done]. intros u s Hs. simpl in *. destruct (Hst u s Hs) as [Hwf Hin].
    split; [done|]. eapply elem_of_delete_other; [done..|].
    intros ->. by rewrite Hnone in Hs.
  - split.
    + intros u s'. simpl. rewrite lookup_delete. case_decide as Hu; [done|].
      intros Hs'. destruct (Hst u s' Hs') as [Hwf Hin]. split; [done|].
      eapply elem_of_delete_other; [done..|]. by intros ->.
    + constructor; [|done]. simpl. destruct (Hst v s Hs) as [Hwf _].
      pose proof (well_formed_in_bounds s Hwf). destruct Hwf as (? & _ & ? & _). lia.
  - destruct (Hst v s Hs) as [Hwf Hin].
    destruct (moved_ready s t s1 Hwf Ht Hs1) as (Hw & Hscore & Hcur).
    destruct (present_at_rest v _ s1 r o Hp eq_refl Hw Hscore Hcur) as (Hf & _ & Hr).
    split; [|apply Forall_app; split; [by apply literal_fair|done]].
    intros u s'. destruct r as [s2|]; simpl.
    + rewrite lookup_insert. case_decide as Hu.
      * subst u. intros [= <-]. split; [by apply Hr|done].
      * apply Hst.
    + rewrite lookup_delete. case_decide; [done|]. apply Hst.
  - set (s1 := Session (shuffle ds l) 0 0 [] false) in *.
    destruct (present_at_rest v _ s1 r o Hp eq_refl eq_refl) as (Hf & _ & Hr);
      [simpl; lia..|].
    split; [|done]. intros u s'. destruct r as [s2|]; simpl.
    + rewrite lookup_insert. case_decide as Hu.
      * subst u. intros [= <-]. split; [by apply Hr|]. apply elem_of_app. right.
        by apply list_elem_of_singleton.
      * intros Hs'. destruct (Hst u s' Hs'). split; [done|].
        apply elem_of_app. by left.
    + rewrite lookup_delete. case_decide; [done|].
      intros Hs'. destruct (Hst u s' Hs'). split; [done|].
      apply elem_of_app. by left.
Qed.

Lemma at_rest_initial : at_rest initial.
Proof. intros u s. simpl. by rewrite lookup_empty. Qed.

Lemma run_at_rest (st : state) (evs : list (oracle * update)) :
  at_rest st →
  ∃ st' out, run st evs = Ok (st', out) ∧ at_rest st' ∧ Forall fair out.
Proof.
  revert st. induction evs as [|[o ev] evs IH]; intros st Hst; simpl.
  - by exists st, [].
  - destruct (dispatch_shape o ev st (at_rest_in_bounds st Hst))
      as (st1 & out1 & -> & Hsh).
    destruct (shape_at_rest ev st st1 out1 Hst Hsh) as [Hst1 Hf1].
    destruct (IH st1 Hst1) as (st2 & out2 & -> & Hst2 & Hf2).
    exists st2, (out1 ++ out2). simpl. split; [done|]. split; [done|].
    by apply Forall_app.
Qed.

(** ** The total of the final report *)

Lemma send_task_frame (u v : Z) (st st' : state) (out : list reply) :
  u ≠ v → send_task v st = Ok (st', out) →
  user_sessions st' !! u = user_sessions st !! u.
Proof.
  intros Hu. destruct (user_sessions st !! v) as [s|] eqn:Hs.
  - rewrite (send_task_present v st s Hs). intros [= <- _].
    destruct (present v (drop (current s) (tasks s)) s).1; simpl.
    + by rewrite lookup_insert_ne.
    + by rewrite lookup_delete_ne.
  - rewrite (send_task_absent v st Hs). by intros [= <- _].
Qed.

(** After a handler has updated the session of [v] and called
    [send_task], a user who had a session either still has one or has
    been sent a summary. *)
Lemma moved_ends (pre : list reply) (u v : Z) (st st' : state) (s1 : session)
    (out : list reply) :
  after pre (send_task v (with_sessions (insert v s1) st)) = Ok (st', out) →
  is_Some (user_sessions st !! u) →
  is_Some (user_sessions st' !! u) ∨ reports u out ≠ [].
Proof.
  intros Hsend Hu. destruct (decide (u = v)) as [->|Hne].
  - revert Hsend.
    rewrite (send_task_present v _ s1) by apply lookup_insert_eq.
    destruct (present v (drop (current s1) (tasks s1)) s1) as [[s2|] o] eqn:Hp;
      simpl; intros [= <- <-].
    + left. simpl. by rewrite lookup_insert_eq.
    + right. apply present_None in Hp as [_ Hr].
      rewrite reports_app, Hr. by destruct (reports v pre).
  - left. destruct (send_task v (with_sessions (insert v s1) st))
      as [[st1 o]| |] eqn:Hs1; simpl in Hsend; [|done..].
    injection Hsend as <- <-.
    rewrite (send_task_frame u v _ _ _ Hne Hs1). simpl.
    by rewrite lookup_insert_ne.
Qed.

Lemma begin_test_frame (o : oracle) (u v : Z) (st st' : state) (out : list reply) :
  u ≠ v → begin_test o v st = Ok (st', out) →
  user_sessions st' !! u = user_sessions st !! u.
Proof.
  intros Hu. unfold begin_test.
  destruct (code_by_user o) as [|[row|]]; try by intros [= <- _].
  destruct (load_tasks_from_supabase o) as [|t l]; [by intros [= <- _]|].
  intros Hsend. rewrite (send_task_frame u v _ _ _ Hu Hsend). simpl.
  by rewrite lookup_insert_ne.
Qed.

(** A handler that neither starts a test for [u] nor returns [u] to the
    menu ends the session of [u] only with a summary. *)
Lemma dispatch_ends (o : oracle) (ev : update) (u : Z) (st st' : state)
    (out : list reply) :
  ¬ starts_test u ev → ¬ to_menu u ev →
  dispatch o ev st = Ok (st', out) →
  is_Some (user_sessions st !! u) →
  is_Some (user_sessions st' !! u) ∨ reports u out ≠ [].
Proof.
  intros Hstart Hmenu Hd Hu.
  destruct ev as [chat v text | chat v data | i]; cbn [dispatch] in Hd.
  - destruct (matches_code text) eqn:Hcode.
    { assert (Hne : u ≠ v) by (intros ->; by apply Hmenu).
      assert (Hsame : user_sessions (register_user o chat v st).1 !! u
                      = user_sessions st !! u).
      { unfold register_user.
        destruct (code_by_code o) as [|[data|]]; simpl; try done.
        destruct (telegram_id data) as [owner|]; [case_decide|
          destruct (code_update_error o)]; simpl;
          rewrite ?lookup_delete_ne by done; done. }
      injection Hd as Hd. rewrite Hd in Hsame. simpl in Hsame. left.
      by rewrite Hsame. }
    case_decide as Htest.
    { assert (Hne : u ≠ v) by (intros ->; by apply Hstart).
      left. by rewrite (begin_test_frame o u v _ _ _ Hne Hd). }
    unfold process_text_answer in Hd.
    destruct (user_sessions st !! v) as [s|] eqn:Hs; [|injection Hd as <- _; by left].
    destruct (waiting_text s); simpl in Hd; [|injection Hd as <- _; by left].
    destruct (tasks s !! current s) as [t|]; [|done].
    revert Hd. case_decide; intros Hd; by eapply moved_ends.
  - case_decide as Htest.
    { assert (Hne : u ≠ v) by (intros ->; by apply Hstart).
      left. by rewrite (begin_test_frame o u v _ _ _ Hne Hd). }
    destruct (startswith (cps "ans:") data) eqn:Hans.
    { unfold process_answer in Hd.
      destruct (user_sessions st !! v) as [s|] eqn:Hs; [|injection Hd as <- _; by left].
      destruct (tasks s !! current s) as [t|]; [|done].
      destruct (after_colon data) as [answer|]; [|done].
      revert Hd. cbn -[normalize_answer send_task after].
      case_decide; intros Hd; by eapply moved_ends. }
    case_decide as Hskip.
    { unfold skip_task in Hd.
      destruct (user_sessions st !! v) as [s|] eqn:Hs; [|injection Hd as <- _; by left].
      destruct (tasks s !! current s) as [t|]; [|done].
      rewrite <- (after_nil (send_task v _)) in Hd. by eapply moved_ends. }
    case_decide as Hback.
    { assert (Hne : u ≠ v) by (intros ->; by apply Hmenu).
      left. injection Hd as <- _. simpl. by rewrite lookup_delete_ne. }
    injection Hd as <- _. by left.
  - destruct (timers st !! i) as [v|]; [|injection Hd as <- _; by left].
    unfold test_timer, show_results in Hd. cbn [user_sessions] in Hd.
    destruct (user_sessions st !! v) as [s|] eqn:Hs.
    + rewrite decide_True in Hd by done. injection Hd as <- <-.
      destruct (decide (u = v)) as [->|Hne].
      * right. simpl. by rewrite decide_True.
      * left. simpl. by rewrite lookup_delete_ne.
    + rewrite decide_False in Hd by (by intros [? ?]). injection Hd as <- _.
      by left.
Qed.

Lemma run_ends (u : Z) (st : state) (evs : list (oracle * update)) :
  in_bounds st →
  no_restart u evs →
  Forall (λ e, ¬ to_menu u e.2) evs →
  is_Some (user_sessions st !! u) →
  ∃ st' out,
    run st evs = Ok (st', out)
    ∧ (user_sessions st' !! u = None → reports u out ≠ []).
Proof.
  revert st. induction evs as [|[o ev] evs IH]; intros st Hst Hevs Hmenu Hu; simpl.
  - exists st, []. split; [done|]. intros Hnone. rewrite Hnone in Hu.
    by destruct Hu.
  - apply Forall_cons in Hevs as [Hev Hevs].
    apply Forall_cons in Hmenu as [Hm Hmenu].
    destruct (dispatch_effect o ev st Hst) as (st1 & out1 & Hd & Hin1 & _).
    rewrite Hd.
    destruct (dispatch_ends o ev u st st1 out1 Hev Hm Hd Hu) as [Hu1 | Hr1].
    + destruct (IH st1 Hin1 Hevs Hmenu Hu1) as (st2 & out2 & -> & Hr2).
      exists st2, (out1 ++ out2). split; [done|]. intros Hnone.
      rewrite reports_app. specialize (Hr2 Hnone).
      by destruct (reports u out1), (reports u out2).
    + destruct (run_in_bounds st1 evs Hin1) as (st2 & out2 & -> & _).
      exists st2, (out1 ++ out2). split; [done|]. intros _.
      rewrite reports_app. by destruct (reports u out1).
Qed.

(** A handler that does not start a test for [u] leaves the timer of a
    running test of [u] asleep. *)
Lemma shape_keeps_timer (u : Z) (ev : update) (st st' : state) (out : list reply) :
  ¬ starts_test u ev → shape ev st st' out →
  (is_Some (user_sessions st !! u) → u ∈ timers st) →
  is_Some (user_sessions st' !! u) → u ∈ timers st'.
Proof.
  intros Hstart [-> _ _ _ | v chat _ _ -> _ _ | i v _ Hi Hnone -> ->
                | i v s _ Hi Hs -> -> | v chat s t s1 pre r o _ _ Hs _ _ _ _ _ -> ->
                | v chat l ds r o Ha Hv _ _ -> ->] Hst; simpl.
  - done.
  - rewrite lookup_delete. case_decide; [by intros [? ?]|]. done.
  - intros Hu. eapply elem_of_delete_other; [by apply Hst | done |].
    intros ->. rewrite Hnone in Hu. by destruct Hu.
  - rewrite lookup_delete. case_decide as Hne; [by intros [? ?]|].
    intros Hu. eapply elem_of_delete_other; [by apply Hst | done | done].
  - destruct (decide (u = v)) as [->|Hne].
    + intros _. destruct r; apply Hst; by rewrite Hs.
    + destruct r; simpl; rewrite ?lookup_insert_ne, ?lookup_delete_ne by done;
        done.
  - assert (Hne : v ≠ u) by (intros ->; by apply Hstart).
    intros Hu.
    assert (Hin : u ∈ timers st).
    { apply Hst. destruct r; simpl in Hu;
        by rewrite ?lookup_insert_ne, ?lookup_delete_ne in Hu by done. }
    destruct r; simpl; apply elem_of_app; by left.
Qed.

Lemma run_keeps_timer (u : Z) (st : state) (evs : list (oracle * update)) :
  in_bounds st →
  no_restart u evs →
  (is_Some (user_sessions st !! u) → u ∈ timers st) →
  ∃ st' out,
    run st evs = Ok (st', out)
    ∧ (is_Some (user_sessions st' !! u) → u ∈ timers st').
Proof.
  revert st. induction evs as [|[o ev] evs IH]; intros st Hst Hevs Ht; simpl.
  - by exists st, [].
  - apply Forall_cons in Hevs as [Hev Hevs].
    destruct (dispatch_effect o ev st Hst) as (st1 & out1 & Hd & Hin1 & _).
    destruct (dispatch_shape o ev st Hst) as (st1' & out1' & Hd' & Hsh).
    rewrite Hd in Hd'. injection Hd' as <- <-. rewrite Hd.
    destruct (IH st1 Hin1 Hevs (shape_keeps_timer u ev st st1 out1 Hev Hsh Ht))
      as (st2 & out2 & -> & Ht2).
    by exists st2, (out1 ++ out2).
Qed.

(** C4: the total of the final report is the number of tasks loaded at
    the start of the test.  Let a registered user start a test on a task
    bank of [n] tasks, and let any updates follow that do not start a new
    test for that user: answers, skips, texts, menu clicks, timer wake-ups,
    updates of other users, in any order.  Then the user is sent at most
    one summary, and every summary sent has total [n].  As long as the
    session is stored its queue has [n] tasks, no summary has been sent, a
    timer of the user is asleep, the wake-up of any such timer sends the
    summary with total [n] and removes the session, and a [send_task] that
    finds the queue of [n] tasks exhausted sends the summary with total
    [n] and removes the session.  If the session is gone at the end and
    no update returned the user to the menu, exactly one summary has been
    sent, with total [n]. *)
Theorem report_total_is_initial_length
    (o : oracle) (row : code_row) (u : Z) (ev : update) (st : state)
    (evs : list (oracle * update)) :
  in_bounds st →
  starts_test u ev →
  code_by_user o = DbData (Some row) →
  load_tasks_from_supabase o ≠ [] →
  no_restart u evs →
  ∃ st' out,
    run st ((o, ev) :: evs) = Ok (st', out)
    ∧ Forall (λ r, r.2 = length (load_tasks_from_supabase o)) (reports u out)
    ∧ (length (reports u out) ≤ 1)%nat
    ∧ (∀ s, user_sessions st' !! u = Some s →
         length (tasks s) = length (load_tasks_from_supabase o)
         ∧ reports u out = []
         ∧ (∃ i, timers st' !! i = Some u)
         ∧ (∀ o' i, timers st' !! i = Some u →
              ∃ st2,
                dispatch o' (TimerFire i) st'
                = Ok (st2,
                      [SendMessage u
                         (Results (correct s)
                            (length (load_tasks_from_supabase o)) (wrong s))
                         results_kb])
                ∧ user_sessions st2 !! u = None)
         ∧ (∀ s1, tasks s1 = tasks s →
              (length (tasks s1) ≤ current s1)%nat →
              send_task u (with_sessions (insert u s1) st')
              = Ok (with_sessions (delete u) st',
                    [SendMessage u
                       (Results (correct s1)
                          (length (load_tasks_from_supabase o)) (wrong s1))
                       results_kb])))
    ∧ (user_sessions st' !! u = None →
       Forall (λ e, ¬ to_menu u e.2) evs →
       ∃ k, reports u out = [(k, length (load_tasks_from_supabase o))]).
Proof.
  intros Hst Hev Hreg Hl Hevs. cbn [run].
  rewrite (dispatch_starts_test o u ev st Hev).
  destruct (begin_test_start o row u st Hst Hreg Hl) as (r & out1 & Hp & -> & Hin).
  set (n := length (load_tasks_from_supabase o)).
  set (s1 := Session (shuffle (draws o) (load_tasks_from_supabase o)) 0 0 [] false) in *.
  set (st1 := put u r (State (user_sessions st) (timers st ++ [u]))) in *.
  assert (H1 : length (tasks s1) = n) by apply length_shuffle.
  assert (Htimer : u ∈ timers st1).
  { subst st1. destruct r; simpl; apply elem_of_app; right;
      by apply list_elem_of_singleton. }
  assert (Hstart : (∀ s, user_sessions st1 !! u = Some s →
                         length (tasks s) = n ∧ reports u out1 = [])
                   ∧ (user_sessions st1 !! u = None → reports u out1 = [(0%nat, n)])).
  { subst st1. destruct r as [s'|]; simpl.
    - apply present_Some in Hp as (Ht & _ & _ & _ & _ & ->).
      rewrite lookup_insert_eq. split; [|done]. intros s [= <-]. by rewrite Ht.
    - apply present_None in Hp as [_ ->]. rewrite lookup_delete_eq.
      split; [done|]. intros _. by rewrite H1. }
  destruct Hstart as [Hsome1 Hnone1].
  assert (Hn1 : ∀ s, user_sessions st1 !! u = Some s → length (tasks s) = n).
  { intros s Hs. by destruct (Hsome1 s Hs). }
  assert (Hr1 : Forall (λ r, r.2 = n) (reports u out1)).
  { destruct (user_sessions st1 !! u) as [s|] eqn:Hs.
    - destruct (Hsome1 s eq_refl) as [_ ->]. constructor.
    - rewrite (Hnone1 eq_refl). by constructor. }
  destruct (run_total u n st1 evs Hin Hevs Hn1) as (st2 & out2 & Hrun & _ & Hn2 & Hr2).
  destruct (run_count u st1 evs Hin Hevs)
    as (st2' & out2' & Hrun' & _ & Hle & Hone & Hgone).
  rewrite Hrun in Hrun'. injection Hrun' as <- <-.
  destruct (run_keeps_timer u st1 evs Hin Hevs (λ _, Htimer))
    as (st2' & out2' & Hrun' & Ht2).
  rewrite Hrun in Hrun'. injection Hrun' as <- <-.
  rewrite Hrun. exists st2, (out1 ++ out2). cbn [after].
  assert (Hall : Forall (λ r, r.2 = n) (reports u (out1 ++ out2))).
  { rewrite reports_app. by apply Forall_app. }
  assert (Hcount : (length (reports u (out1 ++ out2)) ≤ 1)%nat).
  { rewrite reports_app, length_app.
    destruct (user_sessions st1 !! u) as [s|] eqn:Hs.
    - destruct (Hsome1 s eq_refl) as [_ ->]. simpl. lia.
    - destruct (Hgone eq_refl) as (_ & -> & _). rewrite (Hnone1 eq_refl).
      simpl. lia. }
  split; [done|]. split; [done|]. split; [done|]. split.
  - intros s Hs. split; [by apply Hn2|].
    assert (Hnil : reports u (out1 ++ out2) = []).
    { rewrite reports_app.
      destruct (user_sessions st1 !! u) as [s0|] eqn:Hs0.
      - destruct (Hsome1 s0 eq_refl) as [_ ->]. simpl.
        destruct (reports u out2) as [|? [|? ?]] eqn:E; [done| |simpl in Hle; lia].
        destruct (Hone eq_refl) as [Hnone _]. by rewrite Hnone in Hs.
      - destruct (Hgone eq_refl) as (Hnone & _). by rewrite Hnone in Hs. }
    split; [done|]. split.
    { apply list_elem_of_lookup. apply Ht2. by rewrite Hs. }
    split.
    + intros o' i Hi. cbn [dispatch]. rewrite Hi.
      unfold test_timer, show_results. cbn [user_sessions]. rewrite Hs.
      rewrite decide_True by done. rewrite (Hn2 s Hs).
      eexists. split; [reflexivity|]. simpl. apply lookup_delete_eq.
    + intros s' Hts Hcur. rewrite (send_task_exhausted u st2 s' Hcur).
      by rewrite Hts, (Hn2 s Hs).
  - intros Hnone Hmenu.
    assert (Hne : reports u (out1 ++ out2) ≠ []).
    { rewrite reports_app.
      destruct (user_sessions st1 !! u) as [s0|] eqn:Hs0.
      - destruct (run_ends u st1 evs Hin Hevs Hmenu) as (st2' & out2' & Hrun' & Hr).
        { by rewrite Hs0. }
        rewrite Hrun in Hrun'. injection Hrun' as <- <-.
        specialize (Hr Hnone). by destruct (reports u out1), (reports u out2).
      - by rewrite (Hnone1 eq_refl). }
    destruct (reports u (out1 ++ out2)) as [|[k m] [|? ?]] eqn:E;
      [done| |simpl in Hcount; lia].
    exists k. apply Forall_inv in Hall. simpl in Hall. by rewrite Hall.
Qed.

(** ** Further properties of the normaliser *)

(** X1: the result of [normalize_answer] holds no whitespace and no
    character of the punctuation class, whatever the input and whatever
    [str.lower] does. *)
Theorem normalize_answer_is_clean (x : pyval) :
  Forall (λ c, is_space c = false ∧ is_punct c = false) (normalize_answer x).
Proof.
  destruct x as [| b | z | s]; try by constructor.
  unfold normalize_answer, re_sub_class. apply Forall_forall. intros c Hc.
  apply list_elem_of_filter in Hc as [Hs Hc].
  apply list_elem_of_filter in Hc as [Hp _]. done.
Qed.

Lemma lstrip_space (c : N) (s : pystr) :
  is_space c = true → lstrip (c :: s) = lstrip s.
Proof. intros H. simpl. by rewrite H. Qed.

Lemma strip_cons_space (c : N) (s : pystr) :
  is_space c = true → strip (c :: s) = strip s.
Proof. intros H. unfold strip. by rewrite lstrip_space. Qed.

Lemma rstrip_snoc_space (c : N) (s : pystr) :
  is_space c = true → rstrip (s ++ [c]) = rstrip s.
Proof. intros H. unfold rstrip. by rewrite reverse_snoc, lstrip_space. Qed.

Lemma strip_snoc_space (c : N) (s : pystr) :
  is_space c = true → strip (s ++ [c]) = strip s.
Proof.
  intros H. unfold strip. induction s as [|d s IH]; simpl.
  - by rewrite H.
  - destruct (is_space d); [exact IH|].
    by apply (rstrip_snoc_space c (d :: s)).
Qed.

(** X2: whitespace before and after the answer does not change the
    normalised form. *)
Theorem normalize_answer_ignores_margins (pre post s : pystr) :
  Forall (λ c, is_space c = true) pre →
  Forall (λ c, is_space c = true) post →
  normalize_answer (PStr (pre ++ s ++ post)) = normalize_answer (PStr s).
Proof.
  intros Hpre Hpost.
  rewrite <- (normalize_answer_strip (pre ++ s ++ post)).
  rewrite <- (normalize_answer_strip s). f_equal. f_equal.
  induction Hpre as [|c pre Hc _ IH]; simpl.
  - revert Hpost. induction post as [|c post IH] using rev_ind.
    + intros _. by rewrite app_nil_r.
    + intros [Hpost Hc]%Forall_app. apply Forall_inv in Hc.
      simpl in *. rewrite app_assoc, (strip_snoc_space c _ Hc). by apply IH.
  - by rewrite strip_cons_space.
Qed.

(** ** Shuffling *)

Lemma swap_Permutation (i j : nat) (x : list task) : swap i j x ≡ₚ x.
Proof.
  unfold swap. destruct (x !! i) as [a|] eqn:Hi; [|done].
  destruct (x !! j) as [b|] eqn:Hj; [|done].
  by apply Permutation_insert_swap.
Qed.

Lemma shuffle_from_Permutation (i : nat) (ds : list nat) (x : list task) :
  shuffle_from i ds x ≡ₚ x.
Proof.
  revert ds x. induction i as [|i IH]; intros ds x; simpl; [done|].
  by rewrite IH, swap_Permutation.
Qed.

Lemma shuffle_Permutation (ds : list nat) (x : list task) : shuffle ds x ≡ₚ x.
Proof. apply shuffle_from_Permutation. Qed.

(** X3: whatever the random draws, [shuffle] returns a permutation of the
    task list: no task is lost, added or duplicated. *)
Theorem shuffle_is_permutation (ds : list nat) (x : list task) :
  shuffle ds x ≡ₚ x.
Proof.
  unfold shuffle. generalize (length x - 1)%nat. intros i.
  revert ds x. induction i as [|i IH]; intros ds x; cbn [shuffle_from]; [done|].
  rewrite IH. apply swap_Permutation.
Qed.

(** ** Option buttons *)

(** X4: the callback data [send_task] puts on an option button is routed
    back to [process_answer], which recovers from it the text of the
    option, also when that text contains colons; so the answer judged is
    the text the button shows. *)
Theorem option_button_round_trip
    (o : oracle) (chat u : Z) (opt : pyval) (st : state) :
  b_text (option_button opt) = LOption (py_str opt)
  ∧ after_colon (callback_data (option_button opt)) = Some (py_str opt)
  ∧ dispatch o (CallbackQuery chat u (callback_data (option_button opt))) st
    = process_answer chat u (callback_data (option_button opt)) st.
Proof.
  split; [done|]. split; [done|].
  unfold option_button. cbn [callback_data dispatch].
  rewrite decide_False by done. done.
Qed.

(** ** Timers *)

(** X7: in every state the bot reaches from its start, a user with a
    stored session has a timer asleep: no test runs without a timer that
    will end it. *)
Theorem running_test_has_timer (evs : list (oracle * update)) :
  ∃ st out,
    run initial evs = Ok (st, out)
    ∧ ∀ u, is_Some (user_sessions st !! u) → u ∈ timers st.
Proof.
  destruct (run_at_rest initial evs at_rest_initial) as (st & out & Hrun & Hst & _).
  exists st, out. split; [done|]. intros u [s Hs]. by apply (Hst u s).
Qed.

Lemma present_chat (u : Z) (rest : list task) (s : session) :
  Forall (λ m, chat_of m = u) (present u rest s).2.
Proof.
  revert s. induction rest as [|t rest IH]; intros s; simpl.
  - by repeat constructor.
  - repeat case_decide; try by repeat constructor.
    specialize (IH (set_current (current s + 1) s)).
    destruct (present u rest (set_current (current s + 1) s)). by constructor.
Qed.

(** X8: the handler of a message or a button click of user [v] leaves the
    session of every other user as it was, sends only to the chat of the
    update or to [v], and leaves the sleeping timers alone but for one new
    timer of [v] when a test starts. *)
Theorem update_touches_only_its_user
    (o : oracle) (ev : update) (v chat : Z) (st : state) :
  in_bounds st →
  actor ev = Some (v, chat) →
  ∃ st' out,
    dispatch o ev st = Ok (st', out)
    ∧ (∀ u, u ≠ v → user_sessions st' !! u = user_sessions st !! u)
    ∧ Forall (λ r, chat_of r = chat ∨ chat_of r = v) out
    ∧ (timers st' = timers st ∨ timers st' = timers st ++ [v]).
Proof.
  intros Hst Hact. destruct (dispatch_shape o ev st Hst) as (st' & out & Hd & Hsh).
  exists st', out. split; [done|].
  destruct Hsh as [-> Hlit Hchat _ | v' chat' Hact' _ -> Hlit Hchat
                  | i v' Hev _ _ _ _ | i v' s Hev _ _ _ _
                  | v' chat' s t s1 pre r o' Hact' _ Hs Ht Hs1 Hlit Hchat Hp -> ->
                  | v' chat' l ds r o' Hact' _ Hl Hp -> ->];
    try (rewrite Hev in Hact; discriminate);
    try (rewrite Hact in Hact'; injection Hact' as <- <-).
  - split; [done|]. split; [by apply Hchat|by left].
  - split; [|split; [done|by left]].
    intros u Hu. simpl. by rewrite lookup_delete_ne.
  - split; [|split].
    + intros u Hu. destruct r; simpl;
        [by rewrite lookup_insert_ne | by rewrite lookup_delete_ne].
    + apply Forall_app. split.
      * eapply Forall_impl; [exact Hchat|]. intros m Hm. by left.
      * pose proof (present_chat v (remaining s1) s1) as Hc. rewrite Hp in Hc.
        eapply Forall_impl; [exact Hc|]. intros m Hm. by right.
    + left. by destruct r.
  - split; [|split].
    + intros u Hu. destruct r; simpl;
        [by rewrite lookup_insert_ne | by rewrite lookup_delete_ne].
    + match type of Hp with present _ ?l ?s = _ =>
        pose proof (present_chat v l s) as Hc end.
      rewrite Hp in Hc.
      eapply Forall_impl; [exact Hc|]. intros m Hm. by right.
    + right. by destruct r.
Qed.

(** ** Registration codes, the menu and the start of a test *)

(** X9: a text that looks like a registration code goes to
    [register_user] and is never judged as an answer, also when the
    session of the sender waits for a text: the bot sends only fixed
    texts, keeps the timers, and leaves the state as it was or drops the
    session of the sender. *)
Theorem code_like_text_is_never_an_answer
    (o : oracle) (chat v : Z) (text : pystr) (st : state) :
  matches_code text = true →
  ∃ st' out,
    dispatch o (Message chat v text) st = Ok (st', out)
    ∧ Forall literal out
    ∧ (st' = st ∨ st' = with_sessions (delete v) st).
Proof.
  intros Hcode. cbn [dispatch]. rewrite Hcode. unfold register_user, main_menu.
  destruct (code_by_code o) as [|[data|]];
    try (eexists _, _; split; [done|]; split; [by repeat constructor|by left]).
  destruct (telegram_id data) as [owner|].
  - case_decide; eexists _, _; (split; [done|]); (split; [by repeat constructor|]);
      [by right | by left].
  - destruct (code_update_error o); eexists _, _; (split; [done|]);
      (split; [by repeat constructor|]); [by left | by right].
Qed.

Lemma dispatch_back_menu (o : oracle) (chat u : Z) (st : state) :
  dispatch o (CallbackQuery chat u (cps "back_menu")) st = Ok (main_menu u st).
Proof. reflexivity. Qed.

(** X10: after a click on the menu button the test of the user is over
    without a summary: in any run that follows and does not start a new
    test for that user, also when the timer of the dropped test wakes up,
    the user has no session and is sent no question and no summary. *)
Theorem back_to_menu_ends_test
    (o : oracle) (chat u : Z) (st : state) (evs : list (oracle * update)) :
  in_bounds st →
  no_restart u evs →
  ∃ st' out,
    run st ((o, CallbackQuery chat u (cps "back_menu")) :: evs) = Ok (st', out)
    ∧ user_sessions st' !! u = None
    ∧ reports u out = [] ∧ questions u out = [].
Proof.
  intros Hst Hevs. cbn [run]. rewrite dispatch_back_menu. unfold main_menu.
  destruct (run_count u (with_sessions (delete u) st) evs
              (in_bounds_delete u st Hst) Hevs)
    as (st' & out & -> & _ & _ & _ & Hnone).
  destruct Hnone as (Ha & Hr & Hq); [apply lookup_delete_eq|].
  exists st', ([SendMessage u (Lit txt_menu) menu_kb] ++ out).
  split; [done|]. split; [done|]. by rewrite reports_app, questions_app, Hr, Hq.
Qed.

(** X11: a [begin_test] that starts a test carries nothing over from a
    test the user may have had: it adds one timer for the user, leaves the
    other users alone, and either stores a session with no correct answer
    and no miss whose queue is a permutation of the loaded tasks, or (when
    no task waits for an answer) sends the summary 0 out of the number of
    loaded tasks and stores nothing. *)
Theorem begin_test_starts_fresh
    (o : oracle) (row : code_row) (u : Z) (st : state) :
  code_by_user o = DbData (Some row) →
  load_tasks_from_supabase o ≠ [] →
  ∃ st' out,
    begin_test o u st = Ok (st', out)
    ∧ timers st' = timers st ++ [u]
    ∧ (∀ v, v ≠ u → user_sessions st' !! v = user_sessions st !! v)
    ∧ match user_sessions st' !! u with
      | Some s' =>
          correct s' = O ∧ wrong s' = []
          ∧ tasks s' ≡ₚ load_tasks_from_supabase o
          ∧ reports u out = []
      | None => reports u out = [(O, length (load_tasks_from_supabase o))]
      end.
Proof.
  intros Hreg Hl. unfold begin_test. rewrite Hreg.
  destruct (load_tasks_from_supabase o) as [|t l] eqn:El; [done|].
  set (s1 := Session (shuffle (draws o) (t :: l)) 0 0 [] false).
  set (st0 := State (user_sessions st) (timers st ++ [u])).
  change (State (<[u:=s1]> (user_sessions st)) (timers st ++ [u]))
    with (with_sessions (insert u s1) st0).
  rewrite (send_task_present u _ s1) by apply lookup_insert_eq.
  destruct (present u (drop (current s1) (tasks s1)) s1) as [r out] eqn:Hp.
  cbn [fst snd]. rewrite put_insert. exists (put u r st0), out.
  split; [done|]. split; [by destruct r|]. split.
  - intros v Hv. destruct r; simpl;
      [by rewrite lookup_insert_ne | by rewrite lookup_delete_ne].
  - destruct r as [s'|]; simpl.
    + rewrite lookup_insert_eq.
      apply present_Some in Hp as (Ht & Hc & Hw & _ & _ & Hr).
      rewrite Hc, Hw, Ht, Hr. repeat split. apply shuffle_Permutation.
    + rewrite lookup_delete_eq. apply present_None in Hp as [_ ->].
      simpl. by rewrite length_shuffle.
Qed.

(** ** The score and the answers submitted *)

Lemma within_mono (u : Z) (n m : nat) (r : reply) :
  (n ≤ m)%nat → within u n r → within u m r.
Proof.
  intros Hle. destruct r as [c [| | |k t w] kb]; simpl; try done.
  intros H Hc. specialize (H Hc). lia.
Qed.

Lemma literal_within (u : Z) (n : nat) (l : list reply) :
  Forall literal l → Forall (within u n) l.
Proof.
  intros Hl. eapply Forall_impl; [exact Hl|]. by intros [c [| | |] kb].
Qed.

Lemma present_within (u v : Z) (n : nat) (rest : list task) (s : session) :
  (v = u → (score s ≤ n)%nat) →
  Forall (within u n) (present v rest s).2
  ∧ (v = u → ∀ s', (present v rest s).1 = Some s' → (score s' ≤ n)%nat).
Proof.
  revert s. induction rest as [|t rest IH]; intros s Hs; cbn [present].
  - split; [|by intros _ s' [=]]. by constructor.
  - repeat case_decide; cbn [fst snd].
    + split; [by constructor|]. intros Hv s' [= <-]. by apply Hs.
    + split; [by constructor|]. intros Hv s' [= <-]. by apply Hs.
    + specialize (IH (set_current (current s + 1) s) Hs).
      destruct (present v rest (set_current (current s + 1) s)) as [r out].
      destruct IH as [Hout Hr]. split; [by constructor|done].
Qed.

(** After a handler has updated the session of [v] and called
    [send_task], the bound on the score holds of what was sent and of
    the sessions stored. *)
Lemma moved_within (pre : list reply) (u v : Z) (n : nat) (st st' : state)
    (s1 : session) (out : list reply) :
  Forall literal pre →
  (v = u → (score s1 ≤ n)%nat) →
  (∀ s, user_sessions st !! u = Some s → (score s ≤ n)%nat) →
  after pre (send_task v (with_sessions (insert v s1) st)) = Ok (st', out) →
  Forall (within u n) out
  ∧ ∀ s', user_sessions st' !! u = Some s' → (score s' ≤ n)%nat.
Proof.
  intros Hpre Hs1 Hst.
  rewrite (send_task_present v _ s1) by apply lookup_insert_eq.
  destruct (present_within u v n (drop (current s1) (tasks s1)) s1 Hs1)
    as [Hout Hr].
  destruct (present v (drop (current s1) (tasks s1)) s1) as [r o].
  cbn [fst snd after] in *. intros [= <- <-]. split.
  - apply Forall_app. split; [by apply literal_within|done].
  - intros s'. rewrite put_insert. destruct r as [s2|]; simpl.
    + rewrite lookup_insert. case_decide as Hv.
      * intros [= <-]. by apply Hr.
      * apply Hst.
    + rewrite lookup_delete. case_decide; [done|]. apply Hst.
Qed.

Lemma dispatch_within (o : oracle) (ev : update) (u : Z) (n : nat)
    (st st' : state) (out : list reply) :
  (∀ s, user_sessions st !! u = Some s → (score s ≤ n)%nat) →
  dispatch o ev st = Ok (st', out) →
  let m := (n + if submits u ev then 1 else 0)%nat in
  Forall (within u m) out
  ∧ ∀ s', user_sessions st' !! u = Some s' → (score s' ≤ m)%nat.
Proof.
  intros Hst Hd m.
  assert (Hle : (n ≤ m)%nat) by (subst m; lia).
  assert (Hst' : ∀ s, user_sessions st !! u = Some s → (score s ≤ m)%nat).
  { intros s Hs. specialize (Hst s Hs). lia. }
  assert (Hbegin : ∀ v, begin_test o v st = Ok (st', out) →
            Forall (within u m) out
            ∧ ∀ s', user_sessions st' !! u = Some s' → (score s' ≤ m)%nat).
  { intros v. unfold begin_test.
    destruct (code_by_user o) as [|[row|]];
      try (intros [= <- <-]; split;
           [apply literal_within; by repeat constructor|done]).
    destruct (load_tasks_from_supabase o) as [|t l];
      [intros [= <- <-]; split;
       [apply literal_within; by repeat constructor|done]|].
    intros Hsend.
    apply (moved_within [] u v m (State (user_sessions st) (timers st ++ [v]))
             st' (Session (shuffle (draws o) (t :: l)) 0 0 [] false) out);
      try done.
    - intros _. unfold score. simpl. lia.
    - by rewrite after_nil. }
  destruct ev as [chat v text | chat v data | i]; cbn [dispatch] in Hd.
  - destruct (matches_code text) eqn:Hcode.
    { injection Hd as Hd. revert Hd. unfold register_user, main_menu.
      destruct (code_by_code o) as [|[data|]];
        try (intros [= <- <-]; split;
             [apply literal_within; by repeat constructor|done]).
      destruct (telegram_id data) as [owner|];
        [case_decide|destruct (code_update_error o)];
        intros [= <- <-];
        (split; [apply literal_within; by repeat constructor|]);
        try done; intros s'; simpl; rewrite lookup_delete;
        (case_decide; [done|apply Hst']). }
    case_decide as Htest; [by apply (Hbegin v)|].
    unfold process_text_answer in Hd.
    destruct (user_sessions st !! v) as [s|] eqn:Hs;
      [|injection Hd as <- <-; split; [by constructor|done]].
    destruct (waiting_text s); simpl in Hd;
      [|injection Hd as <- <-; split; [by constructor|done]].
    destruct (tasks s !! current s) as [t|]; [|done].
    revert Hd. case_decide; intros Hd;
      (eapply moved_within; [| | |exact Hd]; [by repeat constructor| |done]);
      intros ->; specialize (Hst s Hs); subst m; cbn [submits];
      rewrite bool_decide_eq_true_2, Hcode, bool_decide_eq_false_2 by done;
      unfold score in *; simpl; rewrite ?length_app; simpl; lia.
  - case_decide as Htest; [by apply (Hbegin v)|].
    destruct (startswith (cps "ans:") data) eqn:Hans.
    { unfold process_answer in Hd.
      destruct (user_sessions st !! v) as [s|] eqn:Hs;
        [|injection Hd as <- <-; split;
          [apply literal_within; by repeat constructor|done]].
      destruct (tasks s !! current s) as [t|]; [|done].
      destruct (after_colon data) as [answer|]; [|done].
      revert Hd. cbn -[normalize_answer send_task after].
      case_decide; intros Hd;
        (eapply moved_within; [| | |exact Hd]; [by repeat constructor| |done]);
        intros ->; specialize (Hst s Hs); subst m; cbn [submits];
        rewrite bool_decide_eq_true_2, Hans by done;
        unfold score in *; simpl; rewrite ?length_app; simpl; lia. }
    case_decide as Hskip.
    { unfold skip_task in Hd.
      destruct (user_sessions st !! v) as [s|] eqn:Hs;
        [|injection Hd as <- <-; split; [by constructor|done]].
      destruct (tasks s !! current s) as [t|]; [|done].
      rewrite <- (after_nil (send_task v _)) in Hd.
      eapply moved_within; [| | |exact Hd]; [by constructor| |done].
      intros ->. specialize (Hst s Hs). unfold score in *. simpl. lia. }
    case_decide as Hback.
    { injection Hd as <- <-.
      split; [apply literal_within; by repeat constructor|].
      intros s'. simpl. rewrite lookup_delete. case_decide; [done|apply Hst']. }
    injection Hd as <- <-. split; [by constructor|done].
  - destruct (timers st !! i) as [v|];
      [|injection Hd as <- <-; split; [by constructor|done]].
    unfold test_timer, show_results in Hd. cbn [user_sessions] in Hd.
    destruct (user_sessions st !! v) as [s|] eqn:Hs.
    + rewrite decide_True in Hd by done. injection Hd as <- <-. split.
      * constructor; [|done]. simpl. intros ->. specialize (Hst s Hs).
        unfold score in Hst. lia.
      * intros s'. simpl. rewrite lookup_delete. case_decide; [done|apply Hst'].
    + rewrite decide_False in Hd by (by intros [? ?]). injection Hd as <- <-.
      split; [by constructor|done].
Qed.

Lemma run_within (u : Z) (evs : list (oracle * update)) :
  ∀ (n : nat) (st : state),
    in_bounds st →
    (∀ s, user_sessions st !! u = Some s → (score s ≤ n)%nat) →
    ∃ st' out,
      run st evs = Ok (st', out)
      ∧ Forall (within u (n + submissions u evs)) out
      ∧ ∀ s', user_sessions st' !! u = Some s' →
              (score s' ≤ n + submissions u evs)%nat.
Proof.
  induction evs as [|[o ev] evs IH]; intros n st Hin Hst.
  - exists st, []. split; [done|]. split; [by constructor|].
    intros s' Hs'. specialize (Hst s' Hs'). simpl. lia.
  - cbn [run].
    destruct (dispatch_effect o ev st Hin) as (st1 & out1 & Hd & Hin1 & _).
    rewrite Hd.
    destruct (dispatch_within o ev u n st st1 out1 Hst Hd) as [Hout1 Hst1].
    destruct (IH _ st1 Hin1 Hst1) as (st2 & out2 & -> & Hout2 & Hst2).
    exists st2, (out1 ++ out2). split; [done|].
    assert (E : (n + (if submits u ev then 1 else 0) + submissions u evs
                 = n + submissions u ((o, ev) :: evs))%nat).
    { unfold submissions. simpl. lia. }
    rewrite <- E. split; [|done].
    apply Forall_app. split; [|done].
    eapply Forall_impl; [exact Hout1|]. intros r. apply within_mono. lia.
Qed.

(** X6: a summary counts no more judged answers than were submitted.  In
    every run of the bot from its start, the correct answers and the
    misses of a summary sent to a user, taken together, are at most the
    number of answer submissions of that user in the run (clicks on
    option buttons, and texts that are neither a code nor the test
    command); the same bound holds of the session the user has at the
    end.  Each submission is judged at most once, so the bound does not
    depend on which of the tasks the submissions were judged against. *)
Theorem summaries_count_submissions (u : Z) (evs : list (oracle * update)) :
  ∃ st out,
    run initial evs = Ok (st, out)
    ∧ Forall (within u (submissions u evs)) out
    ∧ ∀ s, user_sessions st !! u = Some s →
           (correct s + length (wrong s) ≤ submissions u evs)%nat.
Proof.
  destruct (run_within u evs 0 initial in_bounds_initial)
    as (st & out & Hrun & Hout & Hst).
  { intros s. simpl. by rewrite lookup_empty. }
  exists st, out. split; [done|]. split; [done|]. exact Hst.
Qed.

(** ** Tasks that are only shown *)

Lemma present_unknown (u : Z) (rest : list task) (s : session) :
  Forall unknown rest →
  present u rest s
  = (None,
     (shown u <$> rest)
       ++ [SendMessage u (Results (correct s) (length (tasks s)) (wrong s))
             results_kb]).
Proof.
  intros Hrest. revert s. induction Hrest as [|t rest [Hc Ht] _ IH]; intros s.
  - done.
  - cbn [present]. fold (ttype t).
    rewrite decide_False by done. rewrite decide_False by done.
    by rewrite IH.
Qed.

(** X12: [send_task] nests one call of itself for each task that is only
    shown.  On a stored session whose tasks from [current] on are all of
    a type that is neither choice nor text, a [send_task] that may nest
    more calls than there are such tasks sends each of their questions
    once, in the order of the queue and without a keyboard, then the
    summary with the score as it was, and removes the session; a
    [send_task] that may nest no more calls than there are such tasks
    does not come to its end (the outcome [NoFuel]: the depth is used
    up). *)
Theorem send_task_nests_per_shown_task
    (fuel : nat) (u : Z) (st : state) (s : session) :
  user_sessions st !! u = Some s →
  Forall unknown (remaining s) →
  ((length (remaining s) < fuel)%nat →
   send_task_fuel fuel u st
   = Ok (with_sessions (delete u) st,
         (shown u <$> remaining s)
           ++ [SendMessage u (Results (correct s) (length (tasks s)) (wrong s))
                 results_kb]))
  ∧ ((fuel ≤ length (remaining s))%nat → send_task_fuel fuel u st = NoFuel).
Proof.
  intros Hs Hun. split.
  - intros Hfuel.
    rewrite (send_task_fuel_present fuel u st s Hs)
      by (unfold remaining in Hfuel; rewrite length_drop in Hfuel; lia).
    fold (remaining s). by rewrite (present_unknown u _ s Hun).
  - revert st s Hs Hun. induction fuel as [|fuel IH]; intros st s Hs Hun Hfuel;
      [done|].
    cbn [send_task_fuel]. rewrite Hs.
    unfold remaining in Hfuel, Hun. rewrite length_drop in Hfuel.
    rewrite decide_False by lia.
    destruct (lookup_lt_is_Some_2 (tasks s) (current s)) as [t Ht]; [lia|].
    rewrite Ht. rewrite (drop_S _ _ _ Ht) in Hun.
    apply Forall_cons in Hun as [[Hc Htx] Hun]. fold (ttype t).
    rewrite decide_False by done. rewrite decide_False by done.
    rewrite (IH _ (set_current (current s + 1) s)); [done| | |].
    + simpl. apply lookup_insert_eq.
    + unfold remaining. simpl. by rewrite Nat.add_1_r.
    + unfold remaining. simpl. rewrite length_drop. lia.
Qed.

(** ** Answering to the end *)

Lemma click_step (ol : oracle * pystr) (chat u : Z) (st : state) (s : session) :
  in_bounds st →
  user_sessions st !! u = Some s →
  ∃ t ok fb r out,
    tasks s !! current s = Some t
    ∧ present u (remaining (answered ok t s)) (answered ok t s) = (r, out)
    ∧ dispatch (click chat u ol).1 (click chat u ol).2 st
      = Ok (put u r st, SendMessage chat (Lit fb) [] :: out)
    ∧ in_bounds (put u r st).
Proof.
  intros Hst Hs.
  destruct (lookup_lt_is_Some_2 (tasks s) (current s)) as [t Ht]; [by eapply Hst|].
  assert (Hgo : ∀ ok fb,
    ∃ r out,
      present u (remaining (answered ok t s)) (answered ok t s) = (r, out)
      ∧ after [SendMessage chat (Lit fb) []]
          (send_task u (with_sessions (insert u (answered ok t s)) st))
        = Ok (put u r st, SendMessage chat (Lit fb) [] :: out)
      ∧ in_bounds (put u r st)).
  { intros ok fb.
    destruct (send_after_update u st (answered ok t s) (in_bounds_others u st Hst))
      as (r & out & Hp & -> & Hin & _).
    { apply lookup_lt_Some in Ht. destruct ok; simpl; lia. }
    by exists r, out. }
  unfold click. cbn [fst snd dispatch]. rewrite decide_False by done.
  replace (startswith (cps "ans:") (cps "ans:" ++ ol.2)) with true by done.
  unfold process_answer. rewrite Hs, Ht, after_colon_ans.
  cbn -[normalize_answer send_task after]. case_decide.
  - destruct (Hgo true txt_right) as (r & out & Hp & Hsend & Hin).
    exists t, true, txt_right, r, out. by rewrite <- Hsend.
  - destruct (Hgo false txt_wrong) as (r & out & Hp & Hsend & Hin).
    exists t, false, txt_wrong, r, out. by rewrite <- Hsend.
Qed.

Lemma no_restart_clicks (chat u : Z) (ls : list (oracle * pystr)) :
  no_restart u (click chat u <$> ls).
Proof.
  induction ls as [|l ls IH]; [constructor|].
  constructor; [|done]. simpl. by intros [_ ?].
Qed.

Lemma clicks_exhaust
    (chat u : Z) (st : state) (s : session) (ls : list (oracle * pystr)) :
  in_bounds st →
  user_sessions st !! u = Some s →
  (length (tasks s) - current s ≤ length ls)%nat →
  ∃ st' out k,
    run st (click chat u <$> ls) = Ok (st', out)
    ∧ user_sessions st' !! u = None
    ∧ reports u out = [(k, length (tasks s))]
    ∧ (correct s ≤ k ≤ correct s + (length (tasks s) - current s))%nat.
Proof.
  revert st s. induction ls as [|l ls IH]; intros st s Hst Hs Hlen.
  { pose proof (Hst u s Hs). simpl in Hlen. lia. }
  destruct (click_step l chat u st s Hst Hs)
    as (t & ok & fb & r & o & Ht & Hp & Hd & Hin).
  apply lookup_lt_Some in Ht as Hlt.
  rewrite fmap_cons. cbn [run].
  destruct (click chat u l) as [o1 ev1]. cbn [fst snd] in Hd. rewrite Hd.
  assert (Hc1 : (correct s ≤ correct (answered ok t s) ≤ correct s + 1)%nat).
  { destruct ok; simpl; lia. }
  assert (Ht1 : tasks (answered ok t s) = tasks s) by by destruct ok.
  assert (Hcur1 : current (answered ok t s) = (current s + 1)%nat) by done.
  cbn [length] in Hlen.
  destruct r as [s'|].
  - apply present_Some in Hp as (Ht' & Hc & _ & Hcur & _ & Hr).
    rewrite Ht1 in Ht'. rewrite Hcur1 in Hcur.
    destruct (IH (put u (Some s') st) s' Hin) as (st2 & out2 & k & -> & Hnone & Hr2 & Hk).
    { simpl. apply lookup_insert_eq. }
    { rewrite Ht'. lia. }
    exists st2, ((SendMessage chat (Lit fb) [] :: o) ++ out2), k.
    split; [done|]. split; [done|]. split.
    + rewrite reports_app. change (reports u (SendMessage chat (Lit fb) [] :: o))
        with (reports u o). rewrite Hr, Hr2. simpl. by rewrite Ht'.
    + rewrite Ht', Hc in Hk. pose proof (Hin u s' (lookup_insert_eq _ _ _)) as Hb.
      rewrite Ht' in Hb. lia.
  - apply present_None in Hp as [_ Hr]. rewrite Ht1 in Hr.
    destruct (run_count u (put u None st) (click chat u <$> ls) Hin
                (no_restart_clicks chat u ls))
      as (st2 & out2 & -> & _ & _ & _ & Hnone).
    destruct Hnone as (Ha & Hr2 & _); [apply lookup_delete_eq|].
    exists st2, ((SendMessage chat (Lit fb) [] :: o) ++ out2), (correct (answered ok t s)).
    split; [done|]. split; [done|]. split.
    + rewrite reports_app. change (reports u (SendMessage chat (Lit fb) [] :: o))
        with (reports u o). by rewrite Hr, Hr2.
    + lia.
Qed.

(** X13: answering by button as often as there are tasks from [current]
    on ends the test.  Let a stored session be in bounds and let every
    task from [current] on wait for an answer (its type is choice or
    text).  After at least as many answer clicks of the user as there are
    such tasks, and no other update, the user has no session and has been
    sent exactly one summary; its total is the length of the queue, and
    its number of correct answers is at least the number before and at
    most that number plus the number of clicks. *)
Theorem answers_exhaust_queue
    (chat u : Z) (st : state) (s : session) (ls : list (oracle * pystr)) :
  in_bounds st →
  user_sessions st !! u = Some s →
  Forall answerable (remaining s) →
  (length (tasks s) - current s ≤ length ls)%nat →
  ∃ st' out k,
    run st (click chat u <$> ls) = Ok (st', out)
    ∧ user_sessions st' !! u = None
    ∧ reports u out = [(k, length (tasks s))]
    ∧ (correct s ≤ k ≤ correct s + length ls)%nat.
Proof.
  intros Hst Hs _ Hlen.
  destruct (clicks_exhaust chat u st s ls Hst Hs Hlen)
    as (st' & out & k & Hrun & Hnone & Hr & Hk).
  exists st', out, k. repeat split; try done; lia.
Qed.

(** ** Skipping all the way round *)

Lemma present_answerable (u : Z) (t : task) (rest : list task) (s : session) :
  answerable t → waiting_text s = false →
  ∃ out,
    present u (t :: rest) s = (Some (set_waiting_text (expects_text t) s), out)
    ∧ questions u out = [question_of t] ∧ reports u out = [].
Proof.
  intros Ht Hw. unfold expects_text, answerable, ttype in *. simpl.
  destruct Ht as [Ht | Ht].
  - rewrite bool_decide_eq_false_2 by (by rewrite Ht).
    case_decide as H1; [|done].
    eexists. split.
    { f_equal. f_equal. destruct s; simpl in *. by subst. }
    simpl. by rewrite decide_True.
  - rewrite bool_decide_eq_true_2 by done.
    case_decide as H1; [by rewrite Ht in H1|].
    case_decide as H2; [|done].
    eexists. split; [done|]. simpl. by rewrite decide_True.
Qed.

Lemma skip_once (o : oracle) (chat u : Z) (st : state) (P B : list task)
    (b : task) (k : nat) (w : list (pyval * pyval)) (f : bool) :
  user_sessions st !! u = Some (Session (P ++ b :: B) (length P) k w f) →
  Forall answerable (B ++ [b]) →
  ∃ h rest out,
    B ++ [b] = h :: rest
    ∧ dispatch o (CallbackQuery chat u (cps "skip")) st
      = Ok (with_sessions
              (insert u (Session (P ++ B ++ [b]) (length P) k w (expects_text h)))
              st, out)
    ∧ questions u out = [question_of h] ∧ reports u out = [].
Proof.
  intros Hs Hans. rewrite dispatch_skip. unfold skip_task. rewrite Hs.
  cbn [tasks current]. rewrite list_lookup_middle by done.
  rewrite delete_middle.
  set (s1 := set_waiting_text false
               (set_tasks ((P ++ B) ++ [b]) (Session (P ++ b :: B) (length P) k w f))).
  rewrite (send_task_present u _ s1) by apply lookup_insert_eq.
  assert (Hrem : drop (current s1) (tasks s1) = B ++ [b]).
  { simpl. rewrite <- app_assoc. apply drop_app_length. }
  rewrite Hrem. destruct (B ++ [b]) as [|h rest] eqn:E.
  { by destruct B. }
  apply Forall_cons in Hans as [Hh _].
  destruct (present_answerable u h rest s1 Hh eq_refl) as (out & -> & Hq & Hr).
  exists h, rest, out. split; [done|]. split; [|done].
  cbn [fst snd]. rewrite put_insert. subst s1. simpl.
  by rewrite <- app_assoc, E.
Qed.

Lemma skip_round (chat u : Z) (os : list oracle) :
  ∀ (B A P : list task) (st : state) (k : nat) (w : list (pyval * pyval))
    (f : bool),
    length os = length B →
    Forall answerable (B ++ A) →
    user_sessions st !! u = Some (Session (P ++ B ++ A) (length P) k w f) →
    ∃ f' out,
      run st (skip_click chat u <$> os)
      = Ok (with_sessions
              (insert u (Session (P ++ A ++ B) (length P) k w f')) st, out)
      ∧ (B = [] → f' = f)
      ∧ (B ≠ [] → Some f' = expects_text <$> head (A ++ B))
      ∧ reports u out = []
      ∧ questions u out = question_of <$> take (length B) (tail (B ++ A ++ B)).
Proof.
  induction os as [|o os IH]; intros B A P st k w f Hlen Hans Hs.
  - destruct B; [|done]. exists f, []. simpl. rewrite app_nil_r.
    split; [|done]. f_equal. f_equal. destruct st as [m ts].
    unfold with_sessions. simpl in *. f_equal. symmetry. by apply insert_id.
  - destruct B as [|b B]; [done|]. simpl in Hlen. injection Hlen as Hlen.
    assert (Hans1 : Forall answerable ((B ++ A) ++ [b])).
    { rewrite Forall_app. apply Forall_cons in Hans as [Hb Hans].
      split; [done|by constructor]. }
    destruct (skip_once o chat u st P (B ++ A) b k w f Hs Hans1)
      as (h & rest & out1 & Eh & Hd & Hq1 & Hr1).
    rewrite fmap_cons. unfold skip_click at 1. cbn [run]. rewrite Hd.
    set (st1 := with_sessions _ st).
    destruct (IH B (A ++ [b]) P st1 k w (expects_text h)) as (f' & out2 & -> & Hf0 & Hf1 & Hr2 & Hq2).
    { done. }
    { by rewrite app_assoc. }
    { subst st1. simpl. rewrite lookup_insert_eq. by rewrite <- !app_assoc. }
    exists f', (out1 ++ out2). split; [|split; [done|split; [|split]]].
    + simpl. f_equal. f_equal. subst st1. unfold with_sessions. simpl.
      rewrite insert_insert_eq. by rewrite <- !app_assoc.
    + intros _. destruct B as [|b' B].
      * rewrite (Hf0 eq_refl). simpl in Eh. by rewrite Eh.
      * rewrite Hf1 by done. by rewrite <- !app_assoc.
    + by rewrite reports_app, Hr1, Hr2.
    + rewrite questions_app, Hq1, Hq2. simpl.
      replace (B ++ A ++ b :: B) with (((B ++ A) ++ [b]) ++ B)
        by (by rewrite <- !app_assoc).
      replace (B ++ (A ++ [b]) ++ B) with (((B ++ A) ++ [b]) ++ B)
        by (by rewrite <- !app_assoc).
      by rewrite Eh.
Qed.

(** X15: skips lose nothing.  When the session of a user is at rest and
    every task from [current] on waits for an answer, skipping as often as
    there are such tasks brings the whole state back to what it was; on
    the way the user is shown the other tasks in queue order and last the
    task the round started from, and no summary. *)
Theorem skipping_every_task_returns
    (chat u : Z) (st : state) (s : session) (os : list oracle) :
  user_sessions st !! u = Some s →
  well_formed s →
  Forall answerable (remaining s) →
  length os = length (remaining s) →
  ∃ out,
    run st (skip_click chat u <$> os) = Ok (st, out)
    ∧ reports u out = []
    ∧ questions u out
      = question_of <$> (tail (remaining s) ++ take 1 (remaining s)).
Proof.
  intros Hs Hwf Hans Hlen. destruct s as [T c k w f]. unfold remaining in *.
  simpl in *. pose proof (well_formed_in_bounds _ Hwf) as Hlt. simpl in Hlt.
  destruct Hwf as (t & Ht & _ & Hflag). simpl in Ht, Hflag.
  assert (HT : T = take c T ++ drop c T ++ []) by (by rewrite app_nil_r, take_drop).
  assert (Hc : c = length (take c T)) by (rewrite length_take_le; lia).
  assert (Hs' : user_sessions st !! u
                = Some (Session (take c T ++ drop c T ++ []) (length (take c T)) k w f)).
  { by rewrite <- HT, <- Hc. }
  destruct (skip_round chat u os (drop c T) [] (take c T) st k w f Hlen)
    as (f' & out & Hrun & _ & Hf' & Hr & Hq); [by rewrite app_nil_r | done |].
  rewrite (drop_S _ _ _ Ht) in Hf', Hq. simpl in Hf', Hq.
  specialize (Hf' ltac:(done)). injection Hf' as ->.
  assert (Hf : expects_text t = f).
  { unfold expects_text. destruct Hflag as [[Hty ->] | [Hty ->]]; rewrite Hty.
    - by apply bool_decide_eq_false_2.
    - by apply bool_decide_eq_true_2. }
  exists out. split; [|split; [done|]].
  - rewrite Hrun. f_equal. f_equal. destruct st as [m ts].
    unfold with_sessions. simpl in *. f_equal.
    apply insert_id. rewrite Hs. f_equal.
    rewrite Hf, <- Hc. f_equal. by rewrite take_drop.
  - rewrite Hq, (drop_S _ _ _ Ht). simpl. f_equal.
    generalize (drop (S c) T). intros D.
    replace (D ++ t :: D) with ((D ++ [t]) ++ D) by (by rewrite <- app_assoc).
    apply take_app_length'. rewrite length_app. simpl. lia.
Qed.

(** ** A test only moves forward *)

Lemma later_stage_refl (s : session) : later_stage s s.
Proof. by repeat split. Qed.

Lemma later_stage_trans (s1 s2 s3 : session) :
  later_stage s1 s2 → later_stage s2 s3 → later_stage s1 s3.
Proof.
  intros (Ht1 & Hc1 & Hk1 & Hw1) (Ht2 & Hc2 & Hk2 & Hw2).
  repeat split; [by rewrite Ht2 | lia | lia | by etrans].
Qed.

Lemma moved_later_stage (s : session) (t : task) (s1 : session) :
  tasks s !! current s = Some t →
  s1 = answered true t s ∨ s1 = answered false t s ∨ s1 = skipped t s →
  later_stage s s1.
Proof.
  intros Ht [-> | [-> | ->]]; repeat split; simpl; try done; try lia.
  - by apply prefix_app_r.
  - rewrite (delete_Permutation _ _ _ Ht) at 2.
    by rewrite Permutation_app_comm.
Qed.

Lemma shape_later_stage (u : Z) (ev : update) (st st' : state)
    (out : list reply) (s s' : session) :
  shape ev st st' out →
  ¬ starts_test u ev →
  user_sessions st !! u = Some s →
  user_sessions st' !! u = Some s' →
  later_stage s s'.
Proof.
  intros [-> _ _ _ | v chat _ _ -> _ _ | i v _ _ _ -> _
         | i v s0 _ _ _ -> _ | v chat s0 t s1 pre r o _ _ Hs0 Ht Hs1 _ _ Hp -> _
         | v chat l ds r o _ Hstart _ _ -> _] Hns Hs; simpl.
  - rewrite Hs. intros [= <-]. apply later_stage_refl.
  - rewrite lookup_delete. case_decide; [done|].
    rewrite Hs. intros [= <-]. apply later_stage_refl.
  - rewrite Hs. intros [= <-]. apply later_stage_refl.
  - rewrite lookup_delete. case_decide; [done|].
    rewrite Hs. intros [= <-]. apply later_stage_refl.
  - destruct (decide (u = v)) as [->|Hu].
    + rewrite Hs in Hs0. injection Hs0 as <-.
      destruct r as [s2|]; simpl; [|by rewrite lookup_delete_eq].
      rewrite lookup_insert_eq. intros [= <-].
      apply (later_stage_trans s s1); [by eapply moved_later_stage|].
      apply present_Some in Hp as (Ht2 & Hc2 & Hw2 & Hcur & _).
      repeat split; [by rewrite Ht2 | lia | lia | by rewrite Hw2].
    + destruct r; simpl;
        [rewrite lookup_insert_ne by done | rewrite lookup_delete_ne by done];
        rewrite Hs; intros [= <-]; apply later_stage_refl.
  - destruct (decide (u = v)) as [->|Hu]; [done|].
    destruct r; simpl;
      [rewrite lookup_insert_ne by done | rewrite lookup_delete_ne by done];
      rewrite Hs; intros [= <-]; apply later_stage_refl.
Qed.

(** X16: until a new test starts for a user, the test only moves forward.
    In any such run from a state whose stored sessions are in bounds, the
    session the user has at the end, if any, holds a permutation of the
    queue of the session at the start, its [current] and its [correct] are
    not smaller, and its list of misses extends the earlier list: no task
    is lost or duplicated by skipping and no recorded answer is taken
    back. *)
Theorem test_only_moves_forward
    (u : Z) (st : state) (s : session) (evs : list (oracle * update)) :
  in_bounds st →
  user_sessions st !! u = Some s →
  no_restart u evs →
  ∃ st' out,
    run st evs = Ok (st', out)
    ∧ ∀ s', user_sessions st' !! u = Some s' → later_stage s s'.
Proof.
  revert st s. induction evs as [|[o ev] evs IH]; intros st s Hst Hs Hevs.
  - exists st, []. split; [done|]. intros s'. rewrite Hs. intros [= <-].
    apply later_stage_refl.
  - apply Forall_cons in Hevs as [Hev Hevs]. cbn [run].
    destruct (dispatch_effect o ev st Hst) as (st1 & out1 & Hd & Hin1 & _).
    destruct (dispatch_shape o ev st Hst) as (st1' & out1' & Hd' & Hsh).
    rewrite Hd in Hd'. injection Hd' as <- <-. rewrite Hd.
    destruct (user_sessions st1 !! u) as [s1|] eqn:Hs1.
    + destruct (IH st1 s1 Hin1 Hs1 Hevs) as (st2 & out2 & -> & Hlater).
      exists st2, (out1 ++ out2). split; [done|]. intros s' Hs'.
      apply (later_stage_trans s s1); [|by apply Hlater].
      by apply (shape_later_stage u ev st st1 out1).
    + destruct (run_count u st1 evs Hin1 Hevs) as (st2 & out2 & -> & _ & _ & _ & Hnone).
      destruct (Hnone Hs1) as (Ha & _).
      exists st2, (out1 ++ out2). split; [done|]. intros s'. by rewrite Ha.
Qed.

End Bot.

(** ** The lowering on basic letters meets the assumptions *)

Lemma in_range_spec (lo hi c : N) : in_range lo hi c = true ↔ (lo ≤ c ≤ hi)%N.
Proof. unfold in_range. rewrite andb_true_iff, !N.leb_le. done. Qed.

Lemma is_space_letter (c : N) :
  (33 ≤ c ≤ 132 ∨ 161 ≤ c ≤ 5759)%N → is_space c = false.
Proof.
  intros Hc. apply not_true_is_false. unfold is_space.
  rewrite !orb_true_iff, !in_range_spec, !N.eqb_eq. lia.
Qed.

Lemma lower_char_cases (c : N) :
  lower_char c = c ∨
  ((65 ≤ c ≤ 90 ∨ 192 ≤ c ≤ 222 ∨ 1024 ≤ c ≤ 1071)%N ∧
   (97 ≤ lower_char c ≤ 122 ∨ 224 ≤ lower_char c ≤ 254
    ∨ 1072 ≤ lower_char c ≤ 1119)%N).
Proof.
  unfold lower_char.
  destruct (in_range 65 90 c) eqn:H1.
  { apply in_range_spec in H1. right. lia. }
  destruct (in_range 192 214 c || in_range 216 222 c) eqn:H2.
  { apply orb_true_iff in H2. rewrite !in_range_spec in H2. right. lia. }
  destruct (in_range 1040 1071 c) eqn:H3.
  { apply in_range_spec in H3. right. lia. }
  destruct (in_range 1024 1039 c) eqn:H4.
  { apply in_range_spec in H4. right. lia. }
  by left.
Qed.

Lemma lower_char_fixed (c : N) :
  (97 ≤ c ≤ 122 ∨ 224 ≤ c ≤ 254 ∨ 1072 ≤ c ≤ 1119)%N → lower_char c = c.
Proof.
  intros Hc. unfold lower_char.
  destruct (in_range 65 90 c) eqn:H1.
  { apply in_range_spec in H1. lia. }
  destruct (in_range 192 214 c || in_range 216 222 c) eqn:H2.
  { apply orb_true_iff in H2. rewrite !in_range_spec in H2. lia. }
  destruct (in_range 1040 1071 c) eqn:H3.
  { apply in_range_spec in H3. lia. }
  destruct (in_range 1024 1039 c) eqn:H4.
  { apply in_range_spec in H4. lia. }
  done.
Qed.

Lemma lower_char_idempotent (c : N) : lower_char (lower_char c) = lower_char c.
Proof.
  destruct (lower_char_cases c) as [E | [_ H]]; [by rewrite E|].
  by apply lower_char_fixed.
Qed.

Lemma is_space_lower_char (c : N) : is_space (lower_char c) = is_space c.
Proof.
  destruct (lower_char_cases c) as [E | [H1 H2]]; [by rewrite E|].
  rewrite !is_space_letter; [done | lia | lia].
Qed.

Lemma lower_basic_stable (cls : N → bool) (s : pystr) :
  lower_basic (re_sub_class cls (lower_basic s))
  = re_sub_class cls (lower_basic s).
Proof.
  unfold lower_basic, re_sub_class. induction s as [|c s IH]; [done|].
  rewrite fmap_cons, filter_cons. case_decide; [|done].
  by rewrite fmap_cons, lower_char_idempotent, IH.
Qed.

Lemma lower_basic_lstrip (s : pystr) :
  lower_basic (lstrip s) = lstrip (lower_basic s).
Proof.
  unfold lower_basic. induction s as [|c s IH]; [done|].
  simpl. rewrite is_space_lower_char. by destruct (is_space c).
Qed.

Lemma lower_basic_strip (s : pystr) :
  lower_basic (strip s) = strip (lower_basic s).
Proof.
  unfold strip, rstrip. rewrite <- lower_basic_lstrip.
  generalize (lstrip s). intros t.
  unfold lower_basic at 1. rewrite fmap_reverse.
  change (reverse (lower_basic (lstrip (reverse t)))
          = reverse (lstrip (reverse (lower_basic t)))).
  rewrite lower_basic_lstrip. unfold lower_basic. by rewrite fmap_reverse.
Qed.

(** The example of the specification: case, surrounding blanks, a hyphen
    and a question mark do not matter. *)
Example normalize_answer_example :
  normalize_answer lower_basic (PStr (cps "  A-B?  ")) = cps "ab"
  ∧ normalize_answer lower_basic (PStr (cps "ab")) = cps "ab"
  ∧ normalize_answer lower_basic (PInt 7) = [].
Proof. by vm_compute. Qed.

Lemma normalize_answer_idempotent_witness :
  (∀ cls s, lower_basic (re_sub_class cls (lower_basic s))
            = re_sub_class cls (lower_basic s))
  ∧ normalize_answer lower_basic
      (PStr (normalize_answer lower_basic (PStr (cps " 3,5 * X "))))
    = normalize_answer lower_basic (PStr (cps " 3,5 * X ")).
Proof.
  split; [exact lower_basic_stable|].
  exact (normalize_answer_idempotent lower_basic lower_basic_stable
           (PStr (cps " 3,5 * X "))).
Defined.

(** ** The claims on sample runs *)

Lemma in_bounds_in_test (l : list task) (n : nat) (w : bool) :
  (n < length l)%nat → in_bounds (in_test l n w).
Proof.
  intros Hn u s. simpl. intros [<- <-]%lookup_singleton_Some. done.
Qed.

Lemma in_bounds_after_removal (l : list task) (n : nat) (w : bool) :
  in_bounds (with_sessions (delete alice) (in_test l n w)).
Proof. intros u s. simpl. by rewrite delete_singleton_eq, lookup_empty. Qed.

Lemma no_restart_cons (u : Z) (o : oracle) (ev : update)
    (evs : list (oracle * update)) :
  ¬ starts_test u ev → no_restart u evs → no_restart u ((o, ev) :: evs).
Proof. intros. by constructor. Qed.

Lemma no_restart_nil (u : Z) : no_restart u [].
Proof. constructor. Qed.

Lemma no_restart_stray : no_restart alice stray.
Proof.
  repeat apply no_restart_cons; try apply no_restart_nil;
    simpl; try tauto; by intros [_ ?].
Qed.

Lemma lookup_in_test (l : list task) (n : nat) (w : bool) :
  user_sessions (in_test l n w) !! alice = Some (Session l n 0 [] w).
Proof. apply lookup_singleton_eq. Qed.

(** C1, on the code: Alice starts a test on one task, which schedules a
    timer, and then starts a second test on two tasks, which replaces her
    session and schedules a second timer.  When the first timer wakes up
    it finds her user id in the store and finalises the session that is
    there, the second one: she gets the summary 0/2 and her new test is
    gone, while its own timer is still asleep. *)
Theorem stale_timer_finalizes_new_session :
  let first := (bank [t_sum], CallbackQuery alice alice (cps "start_test")) in
  let second := (bank [t_sum; t_capital], Message alice alice (cps "/test")) in
  (∃ st out,
     run lower_basic initial [first] = Ok (st, out)
     ∧ user_sessions st !! alice = Some (Session [t_sum] 0 0 [] false)
     ∧ timers st = [alice])
  ∧ (∃ st out,
       run lower_basic initial [first; second] = Ok (st, out)
       ∧ user_sessions st !! alice
         = Some (Session [t_capital; t_sum] 0 0 [] true)
       ∧ timers st = [alice; alice])
  ∧ (∃ st out,
       run lower_basic initial [first; second; (bank [], TimerFire 0)]
       = Ok (st, out)
       ∧ user_sessions st !! alice = None
       ∧ reports alice out = [(0, 2)%nat]
       ∧ timers st = [alice]).
Proof.
  repeat split; eexists _, _; (split; [vm_compute; reflexivity|]); by vm_compute.
Qed.

Lemma button_answer_scores_current_task_witness :
  let st := in_test [t_sum; t_capital] 1 true in
  let s := Session [t_sum; t_capital] 1 0 [] true in
  ∃ s1 fb,
    scored lower_basic (cps "4") (cps "Paris") t_capital s s1 fb
    ∧ process_answer lower_basic alice alice (cps "ans:" ++ cps "4") st
      = after [SendMessage alice (Lit fb) []]
          (send_task alice (with_sessions (insert alice s1) st)).
Proof.
  exact (proj1 (button_answer_scores_current_task lower_basic alice alice
                  (cps "4") (in_test [t_sum; t_capital] 1 true)
                  (Session [t_sum; t_capital] 1 0 [] true) t_capital
                  (lookup_in_test [t_sum; t_capital] 1 true) eq_refl)).
Defined.

(** C3, against the claim as worded: the answer column of the task holds
    the number 4 and Alice clicks the button 4.  The normal form of the
    label, the text 4, differs from the normal form of the expected
    answer, which is empty because the answer is no text; yet the click
    is counted as correct and no miss is recorded, because
    [process_answer] compares with the normal form of [str] of the
    answer. *)
Lemma numeric_answer_counterexample :
  let st := in_test [t_four; t_capital] 0 false in
  let s := Session [t_four; t_capital] 0 0 [] false in
  let s1 := Session [t_four; t_capital] 1 1 [] false in
  user_sessions st !! alice = Some s
  ∧ tasks s !! current s = Some t_four
  ∧ normalize_answer lower_basic (PStr (cps "4"))
    ≠ normalize_answer lower_basic (get (t_answer t_four))
  ∧ process_answer lower_basic alice alice (cps "ans:4") st
    = after [SendMessage alice (Lit txt_right) []]
        (send_task alice (with_sessions (insert alice s1) st))
  ∧ correct s1 = (correct s + 1)%nat
  ∧ wrong s1 = wrong s
  ∧ ¬ judged lower_basic (cps "4")
        (normalize_answer lower_basic (get (t_answer t_four))) t_four s s1
        txt_right.
Proof.
  cbv zeta. split; [apply lookup_in_test|]. split; [done|].
  split; [by vm_compute|]. split; [by vm_compute|].
  split; [done|]. split; [done|].
  intros (_ & _ & _ & H). revert H. rewrite decide_False by (by vm_compute).
  by intros (? & _).
Qed.

(** Alice clicks the button 4 of the task whose answer is the number 4,
    and Alice types the capital in small letters when asked for it. *)
Lemma answer_is_judged_witness :
  (let st := in_test [t_four; t_capital] 0 false in
   let s := Session [t_four; t_capital] 0 0 [] false in
   ∃ s1 fb,
     judged lower_basic (cps "4")
       (normalize_answer lower_basic (PStr (py_str (get (t_answer t_four)))))
       t_four s s1 fb
     ∧ process_answer lower_basic alice alice (cps "ans:" ++ cps "4") st
       = after [SendMessage alice (Lit fb) []]
           (send_task alice (with_sessions (insert alice s1) st)))
  ∧ (let st := in_test [t_four; t_capital] 1 true in
     let s := Session [t_four; t_capital] 1 0 [] true in
     ∃ s1 fb,
       judged lower_basic (cps "paris")
         (normalize_answer lower_basic (get_or (t_answer t_capital) (PStr [])))
         t_capital s s1 fb
       ∧ process_text_answer lower_basic alice alice (cps "paris") st
         = after [SendMessage alice (Lit fb) []]
             (send_task alice (with_sessions (insert alice s1) st))).
Proof.
  split.
  - exact (proj1 (answer_is_judged lower_basic lower_basic_strip alice alice
                    (cps "4") (in_test [t_four; t_capital] 0 false)
                    (Session [t_four; t_capital] 0 0 [] false) t_four
                    (lookup_in_test [t_four; t_capital] 0 false) eq_refl)).
  - exact (proj1 (proj2
             (answer_is_judged lower_basic lower_basic_strip alice alice
                (cps "paris") (in_test [t_four; t_capital] 1 true)
                (Session [t_four; t_capital] 1 0 [] true) t_capital
                (lookup_in_test [t_four; t_capital] 1 true) eq_refl))
             eq_refl).
Defined.

Lemma no_restart_play : no_restart alice play.
Proof.
  repeat apply no_restart_cons; try apply no_restart_nil;
    simpl; by intros [_ ?].
Qed.

Lemma report_total_is_initial_length_witness :
  ∃ st' out,
    run lower_basic initial
      ((bank [t_sum; t_capital], Message alice alice (cps "/test")) :: play)
    = Ok (st', out)
    ∧ Forall (λ r, r.2 = 2%nat) (reports alice out)
    ∧ (length (reports alice out) ≤ 1)%nat
    ∧ (∀ s, user_sessions st' !! alice = Some s →
         length (tasks s) = 2%nat
         ∧ reports alice out = []
         ∧ (∃ i, timers st' !! i = Some alice)
         ∧ (∀ o' i, timers st' !! i = Some alice →
              ∃ st2,
                dispatch lower_basic o' (TimerFire i) st'
                = Ok (st2,
                      [SendMessage alice (Results (correct s) 2 (wrong s))
                         results_kb])
                ∧ user_sessions st2 !! alice = None)
         ∧ (∀ s1, tasks s1 = tasks s →
              (length (tasks s1) ≤ current s1)%nat →
              send_task alice (with_sessions (insert alice s1) st')
              = Ok (with_sessions (delete alice) st',
                    [SendMessage alice (Results (correct s1) 2 (wrong s1))
                       results_kb])))
    ∧ (user_sessions st' !! alice = None →
       Forall (λ e, ¬ to_menu alice e.2) play →
       ∃ k, reports alice out = [(k, 2%nat)]).
Proof.
  exact (report_total_is_initial_length lower_basic (bank [t_sum; t_capital])
           (CodeRow (Some alice)) alice (Message alice alice (cps "/test"))
           initial play in_bounds_initial (conj eq_refl eq_refl) eq_refl
           (λ H : [t_sum; t_capital] = [], nil_cons (eq_sym H))
           no_restart_play).
Defined.

(** The test [play] after a start on the two sample tasks, computed: the
    queue starts as the capital and the sum, the skip turns it round, and
    the summary of the two right answers has the total 2 of the start. *)
Example scenario_skip_then_answers :
  ∃ st out,
    run lower_basic initial
      ((bank [t_sum; t_capital], Message alice alice (cps "/test")) :: play)
    = Ok (st, out)
    ∧ user_sessions st !! alice = None
    ∧ Forall (λ e, ¬ to_menu alice e.2) play
    ∧ reports alice out = [(2, 2)%nat].
Proof.
  eexists _, _. split; [vm_compute; reflexivity|]. split; [by vm_compute|].
  split; [|by vm_compute].
  repeat constructor; simpl; by intros [_ ?].
Qed.

Lemma begin_test_without_tasks_witness :
  begin_test (bank []) alice initial
  = Ok (initial, [SendMessage alice (Lit txt_no_tasks) []]).
Proof.
  exact (proj1 (begin_test_without_tasks (bank []) (CodeRow (Some alice)) alice
                  initial eq_refl eq_refl)).
Defined.

Lemma session_finalizes_once_witness :
  ∃ st' out,
    run lower_basic (show_results alice (in_test [t_sum; t_capital] 0 false)).1
      stray = Ok (st', out)
    ∧ user_sessions st' !! alice = None ∧ reports alice out = [].
Proof.
  exact (proj1 (proj2 (proj2 (proj2
           (session_finalizes_once lower_basic alice
              (in_test [t_sum; t_capital] 0 false) stray
              (in_bounds_after_removal [t_sum; t_capital] 0 false)
              no_restart_stray))))).
Defined.

Lemma skip_moves_task_to_end_witness :
  ∃ st' out,
    run lower_basic (in_test [t_sum; t_note; t_capital] 0 false)
      ((bank [], CallbackQuery alice alice (cps "skip")) :: stray)
    = Ok (st', out)
    ∧ comparable (questions alice out)
        (question_of <$> [t_note; t_capital; t_sum]).
Proof.
  exact (proj2 (proj2 (proj2 (proj2 (proj2 (proj2 (proj2
           (skip_moves_task_to_end lower_basic (bank []) alice alice
              (in_test [t_sum; t_note; t_capital] 0 false)
              (Session [t_sum; t_note; t_capital] 0 0 [] false) t_sum stray
              (in_bounds_in_test [t_sum; t_note; t_capital] 0 false
                 (Nat.lt_0_succ 2))
              (lookup_in_test [t_sum; t_note; t_capital] 0 false) eq_refl
              no_restart_stray)))))))).
Defined.

(** The two scenarios of the specification on the two sample tasks. *)
Example scenario_all_right :
  ∃ st out,
    run lower_basic (in_test [t_sum; t_capital] 0 false)
      [(bank [], CallbackQuery alice alice (cps "ans:4"));
       (bank [], Message alice alice (cps "paris"))]
    = Ok (st, out)
    ∧ user_sessions st !! alice = None
    ∧ last out = Some (SendMessage alice (Results 2 2 []) results_kb).
Proof. eexists _, _. split; [vm_compute; reflexivity|]. by vm_compute. Qed.

Example scenario_all_wrong :
  ∃ st out,
    run lower_basic (in_test [t_sum; t_capital] 0 false)
      [(bank [], CallbackQuery alice alice (cps "ans:3"));
       (bank [], Message alice alice (cps "Berlin"))]
    = Ok (st, out)
    ∧ user_sessions st !! alice = None
    ∧ last out
      = Some (SendMessage alice
                (Results 0 2 [missed_pair t_sum; missed_pair t_capital])
                results_kb).
Proof. eexists _, _. split; [vm_compute; reflexivity|]. by vm_compute. Qed.

(** Returning to the menu right after the start discards the session
    without a summary. *)
Example scenario_back_to_menu :
  ∃ st out,
    run lower_basic initial
      [(bank [t_sum; t_capital], Message alice alice (cps "/test"));
       (bank [], CallbackQuery alice alice (cps "back_menu"))]
    = Ok (st, out)
    ∧ user_sessions st !! alice = None
    ∧ reports alice out = [].
Proof. eexists _, _. split; [vm_compute; reflexivity|]. by vm_compute. Qed.

(** ** The further properties on sample runs *)

Lemma blanks_are_space (n : nat) :
  Forall (λ c, is_space c = true) (replicate n 32%N).
Proof. induction n; by constructor. Qed.

Lemma normalize_answer_ignores_margins_witness :
  normalize_answer lower_basic
    (PStr (replicate 2 32%N ++ cps "Paris" ++ replicate 1 32%N))
  = normalize_answer lower_basic (PStr (cps "Paris")).
Proof.
  exact (normalize_answer_ignores_margins lower_basic lower_basic_strip
           (replicate 2 32%N) (replicate 1 32%N) (cps "Paris")
           (blanks_are_space 2) (blanks_are_space 1)).
Defined.

Lemma in_bounds_two : in_bounds (in_test [t_sum; t_capital] 0 false).
Proof. apply in_bounds_in_test. simpl. lia. Qed.

Lemma update_touches_only_its_user_witness :
  ∃ st' out,
    dispatch lower_basic (bank []) (CallbackQuery 100 alice (cps "skip"))
      (in_test [t_sum; t_capital] 0 false) = Ok (st', out)
    ∧ (∀ u, u ≠ alice →
         user_sessions st' !! u
         = user_sessions (in_test [t_sum; t_capital] 0 false) !! u)
    ∧ Forall (λ r, chat_of r = 100 ∨ chat_of r = alice) out
    ∧ (timers st' = timers (in_test [t_sum; t_capital] 0 false)
       ∨ timers st'
         = timers (in_test [t_sum; t_capital] 0 false) ++ [alice]).
Proof.
  exact (update_touches_only_its_user lower_basic (bank [])
           (CallbackQuery 100 alice (cps "skip")) alice 100
           (in_test [t_sum; t_capital] 0 false) in_bounds_two eq_refl).
Defined.

(** Alice, asked for a number, types 1024 while the bot waits for her
    text: the text is taken for a code. *)
Lemma code_like_text_is_never_an_answer_witness :
  ∃ st' out,
    dispatch lower_basic own_code (Message alice alice (cps "1024"))
      (in_test [t_capital] 0 true) = Ok (st', out)
    ∧ Forall literal out
    ∧ (st' = in_test [t_capital] 0 true
       ∨ st' = with_sessions (delete alice) (in_test [t_capital] 0 true)).
Proof.
  exact (code_like_text_is_never_an_answer lower_basic own_code alice alice
           (cps "1024") (in_test [t_capital] 0 true) eq_refl).
Defined.

Lemma back_to_menu_ends_test_witness :
  ∃ st' out,
    run lower_basic (in_test [t_sum; t_capital] 0 false)
      ((bank [], CallbackQuery alice alice (cps "back_menu")) :: stray)
    = Ok (st', out)
    ∧ user_sessions st' !! alice = None
    ∧ reports alice out = [] ∧ questions alice out = [].
Proof.
  exact (back_to_menu_ends_test lower_basic (bank []) alice alice
           (in_test [t_sum; t_capital] 0 false) stray in_bounds_two
           no_restart_stray).
Defined.

Lemma begin_test_starts_fresh_witness :
  ∃ st' out,
    begin_test (bank [t_sum; t_capital]) alice (in_test [t_sum] 0 false)
    = Ok (st', out)
    ∧ timers st' = timers (in_test [t_sum] 0 false) ++ [alice]
    ∧ (∀ v, v ≠ alice →
         user_sessions st' !! v
         = user_sessions (in_test [t_sum] 0 false) !! v)
    ∧ match user_sessions st' !! alice with
      | Some s' =>
          correct s' = O ∧ wrong s' = []
          ∧ tasks s' ≡ₚ [t_sum; t_capital]
          ∧ reports alice out = []
      | None => reports alice out = [(O, 2%nat)]
      end.
Proof.
  exact (begin_test_starts_fresh (bank [t_sum; t_capital]) (CodeRow (Some alice))
           alice (in_test [t_sum] 0 false) eq_refl
           (λ H : [t_sum; t_capital] = [], nil_cons (eq_sym H))).
Defined.

Lemma sample_session_well_formed :
  well_formed (Session [t_sum; t_capital] 0 0 [] false).
Proof.
  exists t_sum. split; [done|]. split; [simpl; lia|]. by left.
Qed.

Lemma sample_session_answerable :
  Forall answerable (remaining (Session [t_sum; t_capital] 0 0 [] false)).
Proof.
  apply Forall_cons. split; [by left|].
  apply Forall_cons. split; [by right|]. constructor.
Qed.

Lemma skipping_every_task_returns_witness :
  ∃ out,
    run lower_basic (in_test [t_sum; t_capital] 0 false)
      (skip_click alice alice <$> [bank []; bank []])
    = Ok (in_test [t_sum; t_capital] 0 false, out)
    ∧ reports alice out = []
    ∧ questions alice out = question_of <$> [t_capital; t_sum].
Proof.
  exact (skipping_every_task_returns lower_basic alice alice
           (in_test [t_sum; t_capital] 0 false)
           (Session [t_sum; t_capital] 0 0 [] false) [bank []; bank []]
           (lookup_in_test [t_sum; t_capital] 0 false)
           sample_session_well_formed sample_session_answerable eq_refl).
Defined.

Lemma answers_exhaust_queue_witness :
  ∃ st' out k,
    run lower_basic (in_test [t_sum; t_capital] 0 false)
      (click alice alice <$> [(bank [], cps "4"); (bank [], cps "Paris")])
    = Ok (st', out)
    ∧ user_sessions st' !! alice = None
    ∧ reports alice out = [(k, 2%nat)]
    ∧ (0 ≤ k ≤ 0 + 2)%nat.
Proof.
  exact (answers_exhaust_queue lower_basic alice alice
           (in_test [t_sum; t_capital] 0 false)
           (Session [t_sum; t_capital] 0 0 [] false)
           [(bank [], cps "4"); (bank [], cps "Paris")] in_bounds_two
           (lookup_in_test [t_sum; t_capital] 0 false)
           sample_session_answerable (le_n 2)).
Defined.

Lemma t_note_unknown :
  Forall unknown (remaining (Session [t_note; t_note] 0 0 [] false)).
Proof. repeat constructor; by vm_compute. Qed.

(** Two notes in a row: with room for three nested calls both are shown
    and the summary follows. *)
Lemma send_task_nests_per_shown_task_witness :
  send_task_fuel 3 alice (in_test [t_note; t_note] 0 false)
  = Ok (with_sessions (delete alice) (in_test [t_note; t_note] 0 false),
        [shown alice t_note; shown alice t_note;
         SendMessage alice (Results 0 2 []) results_kb]).
Proof.
  exact (proj1 (send_task_nests_per_shown_task 3 alice
                  (in_test [t_note; t_note] 0 false)
                  (Session [t_note; t_note] 0 0 [] false)
                  (lookup_in_test [t_note; t_note] 0 false) t_note_unknown)
           (le_n 3)).
Defined.

Lemma no_restart_moves : no_restart alice moves.
Proof.
  repeat apply no_restart_cons; try apply no_restart_nil; simpl; by intros [_ ?].
Qed.

Lemma test_only_moves_forward_witness :
  ∃ st' out,
    run lower_basic (in_test [t_sum; t_capital] 0 false) moves = Ok (st', out)
    ∧ ∀ s', user_sessions st' !! alice = Some s' →
            later_stage (Session [t_sum; t_capital] 0 0 [] false) s'.
Proof.
  exact (test_only_moves_forward lower_basic alice
           (in_test [t_sum; t_capital] 0 false)
           (Session [t_sum; t_capital] 0 0 [] false) moves in_bounds_two
           (lookup_in_test [t_sum; t_capital] 0 false) no_restart_moves).
Defined.

(** On that run Alice is left with the sum as her current task, one
    correct answer and no miss. *)
Example moves_outcome :
  ∃ st out,
    run lower_basic (in_test [t_sum; t_capital] 0 false) moves = Ok (st, out)
    ∧ user_sessions st !! alice
      = Some (Session [t_capital; t_sum] 1 1 [] false).
Proof. eexists _, _. split; [vm_compute; reflexivity|]. by vm_compute. Qed.
